(** * The tool-execution sandbox of cli-agent

    A shallow embedding of
    - [utils/path_validator.py]  (class [PathValidator]),
    - [utils/output_limiter.py]  (class [OutputLimiter]),
    - [tools/text_editor_tool.py] (class [TextEditorTool]: str_replace,
      create, undo_edit) and
    - [tools/search_tool.py]     (class [SearchTool]: content search),
    together with the properties of these components.

    Python [str] values are [string]s, Python [int]s are [Z], Python
    dictionaries keyed by path are [gmap string _] (or association lists
    where the iteration order is observable).  The functions of the Python
    standard library that the code calls ([posixpath], [pathlib],
    [fnmatch], slicing, [str.count], [str.replace]) are modelled in the
    first part of the file, on a POSIX system. *)

From Stdlib Require Import ZArith Lia Ascii.
From stdpp Require Import gmap strings list pretty sorting.

Open Scope string_scope.
Open Scope list_scope.

(** ** Python strings *)

Module PyStr.

(** [len(s)] as a Python integer. *)
Definition len (s : string) : Z := Z.of_nat (String.length s).

Fixpoint str_take (n : nat) (s : string) : string :=
  match n, s with
  | S n', String c s' => String c (str_take n' s')
  | _, _ => ""
  end.

Fixpoint str_drop (n : nat) (s : string) : string :=
  match n, s with
  | S n', String _ s' => str_drop n' s'
  | _, _ => s
  end.

(** [s[:k]]: a negative [k] counts from the end, and both ends are clipped. *)
Definition slice_to (s : string) (k : Z) : string :=
  if (0 <=? k)%Z then str_take (Z.to_nat k) s
  else str_take (Z.to_nat (len s + k)) s.

(** [s[k:]]. *)
Definition slice_from (s : string) (k : Z) : string :=
  if (0 <=? k)%Z then str_drop (Z.to_nat k) s
  else str_drop (Z.to_nat (len s + k)) s.

(** [s.startswith(pre)]. *)
Fixpoint startswith (s pre : string) {struct pre} : bool :=
  match pre, s with
  | "", _ => true
  | String c pre', String a s' => Ascii.eqb a c && startswith s' pre'
  | String _ _, "" => false
  end.

(** [s.endswith(c)] for a one-character suffix. *)
Fixpoint endswith_char (s : string) (c : ascii) : bool :=
  match s with
  | "" => false
  | String a "" => Ascii.eqb a c
  | String _ s' => endswith_char s' c
  end.

(** [c in s] for a character. *)
Fixpoint contains_char (c : ascii) (s : string) : bool :=
  match s with
  | "" => false
  | String a s' => Ascii.eqb a c || contains_char c s'
  end.

(** [s.split(c)] for a one-character separator: never empty. *)
Fixpoint split (c : ascii) (s : string) : list string :=
  match s with
  | "" => [""]
  | String a s' =>
      if Ascii.eqb a c then "" :: split c s'
      else match split c s' with
           | w :: ws => String a w :: ws
           | [] => [String a ""]
           end
  end.

(** [sep.join(l)]. *)
Definition join (sep : string) (l : list string) : string :=
  String.concat sep l.

(** [s.rfind(c)]: the index of the last occurrence, [-1] when there is
    none. *)
Fixpoint rfind_nat (c : ascii) (s : string) : option nat :=
  match s with
  | "" => None
  | String a s' =>
      match rfind_nat c s' with
      | Some i => Some (S i)
      | None => if Ascii.eqb a c then Some 0 else None
      end
  end.

Definition rfind (c : ascii) (s : string) : Z :=
  match rfind_nat c s with
  | Some i => Z.of_nat i
  | None => (-1)%Z
  end.

(** [s.lstrip(c)] and [s.rstrip(c)]. *)
Fixpoint lstrip (c : ascii) (s : string) : string :=
  match s with
  | String a s' => if Ascii.eqb a c then lstrip c s' else s
  | "" => ""
  end.

Fixpoint rstrip (c : ascii) (s : string) : string :=
  match s with
  | "" => ""
  | String a s' =>
      match rstrip c s' with
      | "" => if Ascii.eqb a c then "" else String a ""
      | r => String a r
      end
  end.

(** [c * n]. *)
Fixpoint repeat_char (c : ascii) (n : nat) : string :=
  match n with
  | 0 => ""
  | S n' => String c (repeat_char c n')
  end.

(** [s.count(sub)] and [s.replace(sub, new)] scan from the left and skip
    over each occurrence found, so occurrences never overlap.  [skip] is
    the number of characters of the last occurrence still to pass. *)
Fixpoint count_from (sub s : string) (skip : nat) : nat :=
  match s with
  | "" => 0
  | String _ s' =>
      match skip with
      | S k => count_from sub s' k
      | 0 =>
          if startswith s sub
          then S (count_from sub s' (String.length sub - 1))
          else count_from sub s' 0
      end
  end.

(** For the empty [sub] Python counts the positions between characters. *)
Definition count (s sub : string) : Z :=
  match sub with
  | "" => len s + 1
  | _ => Z.of_nat (count_from sub s 0)
  end.

Fixpoint replace_from (sub new s : string) (skip : nat) : string :=
  match s with
  | "" => ""
  | String a s' =>
      match skip with
      | S k => replace_from sub new s' k
      | 0 =>
          if startswith s sub
          then new +:+ replace_from sub new s' (String.length sub - 1)
          else String a (replace_from sub new s' 0)
      end
  end.

Fixpoint intersperse (new s : string) : string :=
  match s with
  | "" => new
  | String a s' => new +:+ String a (intersperse new s')
  end.

Definition replace (s sub new : string) : string :=
  match sub with
  | "" => intersperse new s
  | _ => replace_from sub new s 0
  end.

(** [str(n)] for an integer. *)
Definition of_int (n : Z) : string := pretty n.

End PyStr.


(** ** [posixpath], [pathlib] and [fnmatch] *)

Module PosixPath.
Import PyStr.

(** [os.path.isabs]. *)
Definition isabs (s : string) : bool := startswith s "/".

(** [os.path.join(path, b)] for one further component. *)
Definition join2 (path b : string) : string :=
  if startswith b "/" then b
  else if bool_decide (path = "") || endswith_char path "/" then path +:+ b
  else path +:+ "/" +:+ b.

(** [os.path.join(a, *p)]. *)
Definition join (a : string) (p : list string) : string :=
  fold_left join2 p a.

(** The number of leading slashes [normpath] keeps: POSIX gives a
    meaning of its own to exactly two, three or more count as one. *)
Definition initial_slashes (path : string) : nat :=
  if negb (startswith path "/") then 0
  else if startswith path "//" && negb (startswith path "///") then 2
  else 1.

(** The body of the loop of [normpath] over the components. *)
Definition norm_step (initial : nat) (new_comps : list string)
    (comp : string) : list string :=
  if bool_decide (comp = "") || bool_decide (comp = ".") then new_comps
  else if negb (bool_decide (comp = ".."))
          || (bool_decide (initial = 0) && bool_decide (new_comps = []))
          || bool_decide (last new_comps = Some "..")
  then new_comps ++ [comp]
  else removelast new_comps.

(** [os.path.normpath]. *)
Definition normpath (path : string) : string :=
  if bool_decide (path = "") then "."
  else
    let initial := initial_slashes path in
    let comps := fold_left (norm_step initial) (split "/" path) [] in
    let path' := repeat_char "/" initial +:+ PyStr.join "/" comps in
    if bool_decide (path' = "") then "." else path'.

(** [os.path.abspath], in a process whose working directory is [cwd]. *)
Definition abspath (cwd path : string) : string :=
  normpath (if isabs path then path else join2 cwd path).

(** [os.path.dirname]. *)
Definition dirname (p : string) : string :=
  let i := (rfind "/" p + 1)%Z in
  let head := slice_to p i in
  if negb (bool_decide (head = ""))
     && negb (bool_decide (head = repeat_char "/" (String.length head)))
  then rstrip "/" head
  else head.

(** [os.path.basename]. *)
Definition basename (p : string) : string :=
  slice_from p (rfind "/" p + 1).

(** [[x for x in s.split(sep) if x]]. *)
Definition segments (s : string) : list string :=
  filter (fun x => x <> "") (split "/" s).

(** [os.path.commonprefix] of two lists of components: their longest
    common prefix. *)
Fixpoint commonprefix (l1 l2 : list string) : list string :=
  match l1, l2 with
  | x :: l1', y :: l2' =>
      if bool_decide (x = y) then x :: commonprefix l1' l2' else []
  | _, _ => []
  end.

(** [os.path.relpath(path, start)]; [None] is the [ValueError] raised
    for an empty [path]. *)
Definition relpath (cwd path start : string) : option string :=
  if bool_decide (path = "") then None
  else
    let start_list := segments (abspath cwd start) in
    let path_list := segments (abspath cwd path) in
    let i := length (commonprefix start_list path_list) in
    let rel_list :=
      replicate (length start_list - i) ".." ++ drop i path_list in
    match rel_list with
    | [] => Some "."
    | a :: p => Some (join a p)
    end.

(** [pathlib.Path(p).parts] for a POSIX path: the root, when there is
    one, followed by the components that are neither empty nor ".". *)
Definition path_root (p : string) : string :=
  if negb (startswith p "/") then ""
  else if bool_decide
            (String.length p - String.length (lstrip "/" p) = 2)
  then "//" else "/".

Definition parts (p : string) : list string :=
  (if bool_decide (path_root p = "") then [] else [path_root p])
  ++ filter (fun x => x <> "" /\ x <> ".") (split "/" (lstrip "/" p)).

(** *** Normalized paths *)

(** A component that [normpath] never drops or splits. *)
Definition plain (x : string) : Prop :=
  x <> "" /\ x <> "." /\ contains_char "/" x = false.

(** Every ".." stands at the head of a relative path, after other ".."
    only. *)
Definition dotdot_leading (initial : nat) (l : list string) : Prop :=
  forall j, l !! j = Some ".." ->
    initial = 0 /\ forall j', j' < j -> l !! j' = Some "..".

Definition comps_ok (initial : nat) (l : list string) : Prop :=
  Forall plain l /\ dotdot_leading initial l.

(** The path [normpath] builds from the slashes and the components. *)
Definition build (initial : nat) (comps : list string) : string :=
  let path' := repeat_char "/" initial +:+ PyStr.join "/" comps in
  if bool_decide (path' = "") then "." else path'.

(** [p] is [root] or lies below it: the components of [root] are the
    first components of [p]. *)
Definition within (root p : string) : Prop :=
  segments root `prefix_of` segments p.

End PosixPath.

(** [fnmatch.fnmatch] on POSIX (where [normcase] is the identity): the
    pattern is translated into a sequence of items, and the whole name has
    to match.  [*] matches any run of characters, [?] one character,
    [[seq]] one character of [seq] (with ranges [a-z]), [[!seq]] one
    character outside it; a [[] that is never closed stands for itself. *)
Module Fnmatch.
Import PyStr.

Inductive item : Type :=
| Star
| AnyChar
| Lit (c : ascii)
| Class (negated : bool) (ranges : list (ascii * ascii)).

(** The characters of a bracket expression: [a-b] is a range, any other
    character stands for itself. *)
Fixpoint class_ranges (stuff : list ascii) : list (ascii * ascii) :=
  match stuff with
  | [] => []
  | a :: rest =>
      match rest with
      | dash :: b :: rest' =>
          if Ascii.eqb dash "-" then (a, b) :: class_ranges rest'
          else (a, a) :: class_ranges rest
      | _ => (a, a) :: class_ranges rest
      end
  end.

(** The text up to the next "]", and what follows it. *)
Fixpoint scan_close (l : list ascii) : option (list ascii * list ascii) :=
  match l with
  | [] => None
  | c :: l' =>
      if Ascii.eqb c "]" then Some ([], l')
      else match scan_close l' with
           | Some (stuff, rest) => Some (c :: stuff, rest)
           | None => None
           end
  end.

(** The bracket expression that starts after a "[": a leading "!" and
    then a leading "]" belong to it. *)
Definition find_close (l : list ascii) : option (list ascii * list ascii) :=
  let '(pre1, l1) :=
    match l with
    | c :: l' => if Ascii.eqb c "!" then ([c], l') else ([], l)
    | [] => ([], l)
    end in
  let '(pre2, l2) :=
    match l1 with
    | c :: l' => if Ascii.eqb c "]" then ([c], l') else ([], l1)
    | [] => ([], l1)
    end in
  match scan_close l2 with
  | Some (stuff, rest) => Some (pre1 ++ pre2 ++ stuff, rest)
  | None => None
  end.

Definition class_of (stuff : list ascii) : item :=
  match stuff with
  | c :: stuff' =>
      if Ascii.eqb c "!" then Class true (class_ranges stuff')
      else Class false (class_ranges stuff)
  | [] => Class false []
  end.

(** [fnmatch.translate]; [fuel] bounds the number of items. *)
Fixpoint translate (fuel : nat) (pat : list ascii) : list item :=
  match fuel, pat with
  | S fuel', c :: p =>
      if Ascii.eqb c "*" then Star :: translate fuel' p
      else if Ascii.eqb c "?" then AnyChar :: translate fuel' p
      else if Ascii.eqb c "[" then
        match find_close p with
        | Some (stuff, rest) => class_of stuff :: translate fuel' rest
        | None => Lit c :: translate fuel' p
        end
      else Lit c :: translate fuel' p
  | _, _ => []
  end.

Definition in_range (c : ascii) (r : ascii * ascii) : bool :=
  (nat_of_ascii r.1 <=? nat_of_ascii c)%nat
  && (nat_of_ascii c <=? nat_of_ascii r.2)%nat.

Definition item_matches (it : item) (c : ascii) : bool :=
  match it with
  | Star | AnyChar => true
  | Lit a => Ascii.eqb a c
  | Class negated ranges => xorb negated (existsb (in_range c) ranges)
  end.

(** Matching the whole of [name] against the items. *)
Fixpoint matches (its : list item) : string -> bool :=
  match its with
  | [] => fun name => bool_decide (name = "")
  | Star :: its' =>
      fix star (name : string) : bool :=
        matches its' name
        || match name with
           | "" => false
           | String _ name' => star name'
           end
  | it :: its' =>
      fun name =>
        match name with
        | "" => false
        | String c name' => item_matches it c && matches its' name'
        end
  end.

Definition fnmatch (name pat : string) : bool :=
  matches (translate (String.length pat) (String.list_ascii_of_string pat)) name.

End Fnmatch.

(** ** PathGuard: [utils/path_validator.py] *)

Module PathValidator.
Import PyStr PosixPath.

(** The attributes of a [PathValidator]; [cwd] is the working directory
    of the process, which [os.path.abspath] and [os.path.relpath] read. *)
Record t : Type := mk {
  cwd : string;
  allowed_folders : list string;
  repo_path : string;
  ignore_patterns : list string
}.

(** [__init__]: the repository path is made absolute; the patterns are
    what [_load_ignore_patterns] read from the ignore file. *)
Definition init (cwd : string) (allowed_folders : list string)
    (patterns : list string) (repo_path : string) : t :=
  {| cwd := cwd;
     allowed_folders := allowed_folders;
     repo_path := abspath cwd repo_path;
     ignore_patterns := patterns |}.

(** [os.path.join] applied to the first [i] parts. *)
Definition partial_path (parts : list string) (i : nat) : string :=
  match take i parts with
  | a :: p => PosixPath.join a p
  | [] => ""
  end.

(** [is_path_ignored]: [True] as soon as a pattern matches the
    normalized path or the path made of its first [i] parts. *)
Definition is_path_ignored (self : t) (path : string) : bool :=
  let norm_path := normpath path in
  existsb
    (fun pattern =>
       Fnmatch.fnmatch norm_path pattern
       || let parts := PosixPath.parts norm_path in
          existsb
            (fun i => Fnmatch.fnmatch (partial_path parts i) pattern)
            (seq 1 (length parts)))
    (ignore_patterns self).

(** [not rel.startswith('..')] for the result of [relpath], where the
    [ValueError] is caught and ignored. *)
Definition is_relative_to (self : t) (norm_path start : string) : bool :=
  match relpath (cwd self) norm_path start with
  | Some rel_path => negb (startswith rel_path "..")
  | None => false
  end.

(** The path an entry of [allowed_folders] stands for. *)
Definition allowed_path (self : t) (allowed_folder : string) : string :=
  if negb (isabs allowed_folder)
  then normpath (join2 (repo_path self) allowed_folder)
  else normpath allowed_folder.

(** [is_path_allowed]. *)
Definition is_path_allowed (self : t) (path : string) : bool :=
  let norm_path := normpath path in
  let repo_dir := repo_path self in
  if bool_decide (norm_path = repo_dir) || bool_decide (norm_path = ".")
  then true
  else if bool_decide (dirname norm_path = "")
          || bool_decide (dirname norm_path = ".")
  then true
  else if is_relative_to self norm_path repo_dir then true
  else if bool_decide (allowed_folders self = []) then false
  else
    existsb
      (fun allowed_folder =>
         let allowed_path := allowed_path self allowed_folder in
         bool_decide (norm_path = allowed_path)
         || startswith norm_path (allowed_path +:+ "/")
         || is_relative_to self norm_path allowed_path)
      (allowed_folders self).

(** The three messages [validate_path] fails with. *)
Definition traversal_error (original_path : string) : string :=
  "Path traversal not allowed: " +:+ original_path.
Definition ignored_error (norm_path : string) : string :=
  "Path is ignored by .toolignore: " +:+ norm_path.
Definition access_denied_error (norm_path : string) : string :=
  "Path is not in allowed folders: " +:+ norm_path.

(** The path [validate_path] normalizes and checks. *)
Definition resolve (self : t) (path : string) : string :=
  let path :=
    if startswith path "/"
    then (if (1 <? len path)%Z then slice_from path 1 else ".")
    else path in
  let path :=
    if negb (isabs path) then join2 (repo_path self) path else path in
  normpath path.

(** [validate_path]: [(True, norm_path)] or [(False, message)]. *)
Definition validate_path (self : t) (path : string) : bool * string :=
  let original_path := path in
  let norm_path := resolve self path in
  if bool_decide (".." ∈ split "/" norm_path)
  then (false, traversal_error original_path)
  else if is_path_ignored self norm_path
  then (false, ignored_error norm_path)
  else if negb (is_path_allowed self norm_path)
  then (false, access_denied_error norm_path)
  else (true, norm_path).

End PathValidator.

(** ** OutputGovernor: [utils/output_limiter.py] *)

(** The line feed and carriage return characters. *)
Definition LF : ascii := "010"%char.
Definition CR : ascii := "013"%char.
Definition nl : string := String LF "".

(** Python dictionaries iterate in insertion order: a list of pairs with
    pairwise distinct keys.  [d[k] = v] keeps the place of a key that is
    already there. *)
Module Dict.

Definition t (V : Type) : Type := list (string * V).

Fixpoint set {V} (d : t V) (k : string) (v : V) : t V :=
  match d with
  | [] => [(k, v)]
  | (k', v') :: d' =>
      if bool_decide (k' = k) then (k, v) :: d' else (k', v') :: set d' k v
  end.

Fixpoint get {V} (d : t V) (k : string) : option V :=
  match d with
  | [] => None
  | (k', v') :: d' => if bool_decide (k' = k) then Some v' else get d' k
  end.

End Dict.

(** [l[:k]] for a list. *)
Definition list_slice_to {A} (l : list A) (k : Z) : list A :=
  if (0 <=? k)%Z then take (Z.to_nat k) l
  else take (Z.to_nat (Z.of_nat (length l) + k)) l.

(** [l[k:]] for a list. *)
Definition list_slice_from {A} (l : list A) (k : Z) : list A :=
  if (0 <=? k)%Z then drop (Z.to_nat k) l
  else drop (Z.to_nat (Z.of_nat (length l) + k)) l.

Module OutputLimiter.
Import PyStr.

(** The note [truncate_text] appends. *)
Definition note (text : string) (max_chars : Z) : string :=
  nl +:+ nl +:+ "[Output truncated to " +:+ of_int max_chars
  +:+ " characters. Original length: " +:+ of_int (len text)
  +:+ " characters]".

(** [truncate_text]. *)
Definition truncate_text (text : string) (max_chars : Z)
    (add_note : bool) : string :=
  if (len text <=? max_chars)%Z then text
  else
    let truncated := slice_to text max_chars in
    if add_note
    then slice_to truncated (max_chars - len (note text max_chars))
         +:+ note text max_chars
    else truncated.

(** [limit_file_matches]. *)
Definition limit_file_matches {A} (matches : list A) (max_matches : Z)
    : list A :=
  if (Z.of_nat (length matches) <=? max_matches)%Z then matches
  else list_slice_to matches max_matches.

(** The loop of [limit_content_matches] over [results.items()]. *)
Fixpoint limit_content_loop {A} (items : list (string * list A))
    (max_total_matches max_matches_per_file : Z)
    (limited_results : Dict.t (list A)) (total_matches : Z)
    : Dict.t (list A) :=
  match items with
  | [] => limited_results
  | (file_path, matches) :: items' =>
      let file_matches := list_slice_to matches max_matches_per_file in
      let limited_results := Dict.set limited_results file_path file_matches in
      let total_matches :=
        (total_matches + Z.of_nat (length file_matches))%Z in
      if (total_matches >=? max_total_matches)%Z then limited_results
      else limit_content_loop items' max_total_matches
             max_matches_per_file limited_results total_matches
  end.

(** [limit_content_matches]. *)
Definition limit_content_matches {A} (results : Dict.t (list A))
    (max_total_matches max_matches_per_file : Z) : Dict.t (list A) :=
  limit_content_loop results max_total_matches max_matches_per_file [] 0.

(** A match of the fuzzy file search. *)
Record FileMatch : Type := mkFileMatch {
  path : string;
  score : Z;
  filename : string
}.

(** The pieces of the text [format_file_search_results] builds. *)
Definition no_files_message (query : string) : string :=
  "No files found matching '" +:+ query +:+ "'".
Definition files_header (n : nat) (query : string) : string :=
  "Found " +:+ of_int (Z.of_nat n) +:+ " files matching '" +:+ query
  +:+ "':" +:+ nl +:+ nl.
Definition file_line (i : Z) (result : FileMatch) : string :=
  of_int i +:+ ". " +:+ path result +:+ " (Score: "
  +:+ of_int (score result) +:+ ")" +:+ nl.
Definition omitted_note (remaining : Z) : string :=
  nl +:+ "[" +:+ of_int remaining
  +:+ " more matches not shown due to output size limit]".

(** The loop of [format_file_search_results] over [enumerate(results, 1)],
    from the entry numbered [i] on; [n] is [len(results)]. *)
Fixpoint format_file_loop (n max_chars : Z) (results : list FileMatch)
    (i : Z) (content : string) : string :=
  match results with
  | [] => content
  | result :: results' =>
      let line := file_line i result in
      if (len content + len line >? max_chars)%Z
      then content +:+ omitted_note (n - i + 1)
      else format_file_loop n max_chars results' (i + 1) (content +:+ line)
  end.

(** The numbered lines of [results], the first one numbered [i]. *)
Fixpoint listing (results : list FileMatch) (i : Z) : string :=
  match results with
  | [] => ""
  | result :: results' => file_line i result +:+ listing results' (i + 1)
  end.

(** [format_file_search_results]. *)
Definition format_file_search_results (results : list FileMatch)
    (query : string) (max_chars : Z) : string :=
  match results with
  | [] => no_files_message query
  | _ =>
      format_file_loop (Z.of_nat (length results)) max_chars results 1
        (files_header (length results) query)
  end.

End OutputLimiter.

(** ** The file system *)

(** The regular files, by path, with their bytes.  Text is ASCII, so that
    a character is a byte.  The editor keeps the directories beside them,
    for the command that tests for them and makes them. *)
Abbreviation filesystem := (gmap string string).

Module TextIO.

(** Reading in text mode translates the line ends CR LF and CR to LF;
    on POSIX writing in text mode stores the characters unchanged. *)
Fixpoint universal_newlines (s : string) : string :=
  match s with
  | "" => ""
  | String c s' =>
      if Ascii.eqb c CR
      then String LF
             match s' with
             | String c' s'' =>
                 if Ascii.eqb c' LF then universal_newlines s''
                 else universal_newlines s'
             | "" => ""
             end
      else String c (universal_newlines s')
  end.

(** [open(path, 'r').read()]; [None] when there is no such file. *)
Definition read (fs : filesystem) (path : string) : option string :=
  universal_newlines <$> fs !! path.

(** [open(path, 'w').write(text)]. *)
Definition write (fs : filesystem) (path text : string) : filesystem :=
  <[path := text]> fs.

(** The lines of a text, each with its line end: [f.readlines()]. *)
Fixpoint lines_keepends (s : string) : list string :=
  match s with
  | "" => []
  | String c s' =>
      if Ascii.eqb c LF then String c "" :: lines_keepends s'
      else match lines_keepends s' with
           | l :: ls => String c l :: ls
           | [] => [String c ""]
           end
  end.

Definition readlines (fs : filesystem) (path : string)
    : option (list string) :=
  lines_keepends <$> read fs path.

End TextIO.

(** ** Editor: [tools/text_editor_tool.py] *)

Module TextEditorTool.
Import PyStr PosixPath.

(** The value of [last_edits[path]]. *)
Inductive operation : Type := Create | StrReplace | Insert.

Record EditRecord : Type := mkEdit {
  backup_path : string;
  op : operation;
  old_content : string;
  new_content : string
}.

(** The attributes of the tool that the handlers use, and the file
    system they act on: its regular files, its directories, and the
    working directory of the process. *)
Record t : Type := mk {
  backup_dir : string;
  last_edits : gmap string EditRecord;
  fs : filesystem;
  directories : gset string;
  getcwd : string
}.

Definition with_fs (self : t) (fs' : filesystem) : t :=
  {| backup_dir := backup_dir self;
     last_edits := last_edits self;
     fs := fs';
     directories := directories self;
     getcwd := getcwd self |}.

Definition with_last_edit (self : t) (path : string) (e : EditRecord) : t :=
  {| backup_dir := backup_dir self;
     last_edits := <[path := e]> (last_edits self);
     fs := fs self;
     directories := directories self;
     getcwd := getcwd self |}.

Definition with_directories (self : t) (directories' : gset string) : t :=
  {| backup_dir := backup_dir self;
     last_edits := last_edits self;
     fs := fs self;
     directories := directories';
     getcwd := getcwd self |}.

(** [os.path.isfile], [os.path.isdir] and [os.path.exists]. *)
Definition isfile (self : t) (path : string) : bool :=
  negb (bool_decide (fs self !! path = None)).
Definition isdir (self : t) (path : string) : bool :=
  bool_decide (path ∈ directories self).
Definition path_exists (self : t) (path : string) : bool :=
  isfile self path || isdir self path.

(** The errors of the operating system that making a directory raises,
    with the text [str(e)] gives them. *)
Inductive OSError : Type :=
| FileExistsError (filename : string)
| NotADirectoryError (filename : string)
| FileNotFoundError (filename : string).

Definition strerror (e : OSError) : string :=
  match e with
  | FileExistsError filename =>
      "[Errno 17] File exists: '" +:+ filename +:+ "'"
  | NotADirectoryError filename =>
      "[Errno 20] Not a directory: '" +:+ filename +:+ "'"
  | FileNotFoundError filename =>
      "[Errno 2] No such file or directory: '" +:+ filename +:+ "'"
  end.

(** [os.mkdir(name)] for an absolute [name]: the directory that is to
    hold it is looked up first. *)
Definition mkdir (self : t) (name : string) : OSError + t :=
  let parent := dirname name in
  if negb (isdir self parent)
  then inl (if isfile self parent then NotADirectoryError name
            else FileNotFoundError name)
  else if path_exists self name
  then inl (FileExistsError name)
  else inr (with_directories self ({[name]} ∪ directories self)).

(** The end of [os.makedirs(name, exist_ok=True)]: [mkdir], whose error
    is dropped when [name] is a directory. *)
Definition makedirs_leaf (self : t) (name : string) : option OSError * t :=
  match mkdir self name with
  | inr self => (None, self)
  | inl e => if isdir self name then (None, self) else (Some e, self)
  end.

(** [os.makedirs(name, exist_ok=True)]: the error it raises, if any, and
    the state it leaves.  It calls itself on the head of [name], which is
    shorter, so that [fuel] counts the characters that are left. *)
Fixpoint makedirs_fuel (fuel : nat) (self : t) (name : string)
    : option OSError * t :=
  let head := dirname name in
  let tail := basename name in
  let '(head, tail) :=
    if bool_decide (tail = "") then (dirname head, basename head)
    else (head, tail) in
  if negb (bool_decide (head = "")) && negb (bool_decide (tail = ""))
     && negb (path_exists self head)
  then
    match fuel with
    | 0 => makedirs_leaf self name
    | S fuel =>
        match makedirs_fuel fuel self head with
        | (Some (FileExistsError _), self) | (None, self) =>
            if bool_decide (tail = ".") then (None, self)
            else makedirs_leaf self name
        | (Some e, self) => (Some e, self)
        end
    end
  else makedirs_leaf self name.

Definition makedirs (self : t) (name : string) : option OSError * t :=
  makedirs_fuel (String.length name) self name.

(** The directory that holds a directory is a directory. *)
Definition closed (self : t) : Prop :=
  forall d, d ∈ directories self -> dirname d ∈ directories self.

(** [made] is [self] with more directories, each in a directory. *)
Definition extends (self made : t) : Prop :=
  made = with_directories self (directories made)
  /\ directories self ⊆ directories made
  /\ (closed self -> closed made).

(** The parameters of a call; an absent key is [None]. *)
Record params : Type := mkParams {
  old_str : option string;
  new_str : option string;
  file_text : option string;
  confirm : option bool
}.

(** The name of the backup of [file_path]. *)
Definition backup_filename (self : t) (file_path : string) : string :=
  PosixPath.join (backup_dir self) [basename file_path +:+ ".bak"].

(** [_create_backup]: copies the file into the backup directory. *)
Definition _create_backup (self : t) (file_path : string) : string * t :=
  match fs self !! file_path with
  | None => ("", self)
  | Some bytes =>
      let backup_filename := backup_filename self file_path in
      (backup_filename, with_fs self (<[backup_filename := bytes]> (fs self)))
  end.

(** The results of the handlers. *)
Definition not_found_error (path : string) : string :=
  "Error: File '" +:+ path +:+ "' not found".
Definition old_str_required_error : string :=
  "Error: old_str parameter is required".
Definition no_match_error : string :=
  "Error: The text to replace was not found in the file".
Definition ambiguous_match_error (k : Z) : string :=
  "Error: The text to replace was found multiple times (" +:+ of_int k
  +:+ "). Please provide more context to make the replacement unique.".
Definition replace_exception (path : string) : string :=
  "Error replacing text: [Errno 2] No such file or directory: '"
  +:+ path +:+ "'".
Definition confirm_edit (diff_text : string) : string :=
  "CONFIRM_EDIT" +:+ nl +:+ nl +:+ "Proposed changes:" +:+ nl +:+ nl
  +:+ diff_text +:+ nl +:+ nl
  +:+ "Do you want to apply these changes? (yes/no)".
Definition replaced : string :=
  "Successfully replaced text at exactly one location.".
Definition already_exists_error (path : string) : string :=
  "Error: File '" +:+ path +:+ "' already exists".
Definition confirm_create (path preview : string) : string :=
  "CONFIRM_EDIT" +:+ nl +:+ nl +:+ "Proposed file creation '" +:+ path
  +:+ "':" +:+ nl +:+ nl +:+ preview +:+ nl +:+ nl
  +:+ "Do you want to create this file? (yes/no)".
Definition created (path : string) : string :=
  "Successfully created file '" +:+ path +:+ "'.".
Definition create_exception (e : OSError) : string :=
  "Error creating file: " +:+ strerror e.
Definition no_history_error (path : string) : string :=
  "Error: No previous edits found for '" +:+ path +:+ "'".
Definition undone_create (path : string) : string :=
  "Successfully undid file creation by deleting '" +:+ path +:+ "'.".
Definition undone_from_backup (path : string) : string :=
  "Successfully undid changes to '" +:+ path +:+ "' from backup.".
Definition undone_from_content (path : string) : string :=
  "Successfully undid changes to '" +:+ path +:+ "' from stored content.".

Section Handlers.

(** The text of the unified diff of two contents with three lines of
    context, between the files [a/path] and [b/path]:
    [difflib.unified_diff], joined. *)
Variable unified_diff : string -> string -> string -> string -> string.

(** [_handle_str_replace]. *)
Definition _handle_str_replace (self : t) (path : string) (p : params)
    : string * t :=
  if bool_decide (fs self !! path = None)
  then (not_found_error path, self)
  else
    let old_str := default "" (old_str p) in
    let new_str := default "" (new_str p) in
    let confirm := default true (confirm p) in
    if bool_decide (old_str = "")
    then (old_str_required_error, self)
    else
      let '(backup_path, self) := _create_backup self path in
      match TextIO.read (fs self) path with
      | None => (replace_exception path, self)
      | Some content =>
          if (count content old_str =? 0)%Z
          then (no_match_error, self)
          else if (count content old_str >? 1)%Z
          then (ambiguous_match_error (count content old_str), self)
          else
            let new_content := replace content old_str new_str in
            if confirm
            then (confirm_edit
                    (unified_diff content new_content
                       ("a/" +:+ path) ("b/" +:+ path)),
                  self)
            else
              let self := with_fs self (TextIO.write (fs self) path new_content) in
              let self :=
                with_last_edit self path
                  {| backup_path := backup_path;
                     op := StrReplace;
                     old_content := content;
                     new_content := new_content |} in
              (replaced, self)
      end.

(** [_handle_create], on a path as [handle_tool_call] passes it: the
    resolved path of [validate_path], absolute and normalized.  An error
    of [os.makedirs] is caught and reported; after it the directory of
    [path] is there and [path] is not, so that [open(path, 'w')] raises
    nothing. *)
Definition _handle_create (self : t) (path : string) (p : params)
    : string * t :=
  let file_text := default "" (file_text p) in
  let confirm := default true (confirm p) in
  if path_exists self path
  then (already_exists_error path, self)
  else if confirm
  then
    let preview :=
      if (len file_text >? 1000)%Z
      then slice_to file_text 1000 +:+ "..."
      else file_text in
    (confirm_create path preview, self)
  else
    match makedirs self (dirname (abspath (getcwd self) path)) with
    | (Some e, self) => (create_exception e, self)
    | (None, self) =>
        let self := with_fs self (TextIO.write (fs self) path file_text) in
        let self :=
          with_last_edit self path
            {| backup_path := "";
               op := Create;
               old_content := "";
               new_content := file_text |} in
        (created path, self)
    end.

(** [_handle_undo_edit].  Every record holds an [old_content], so the
    last branch of the source, for a record without one, does not
    arise. *)
Definition _handle_undo_edit (self : t) (path : string) : string * t :=
  match last_edits self !! path with
  | None => (no_history_error path, self)
  | Some last_edit =>
      match op last_edit with
      | Create =>
          (undone_create path,
           if negb (bool_decide (fs self !! path = None))
           then with_fs self (delete path (fs self))
           else self)
      | _ =>
          match
            (if bool_decide (backup_path last_edit = "") then None
             else fs self !! backup_path last_edit)
          with
          | Some bytes =>
              (undone_from_backup path,
               with_fs self (<[path := bytes]> (fs self)))
          | None =>
              (undone_from_content path,
               with_fs self
                 (TextIO.write (fs self) path (old_content last_edit)))
          end
      end
  end.

(** The results of [_handle_insert]. *)
Definition insert_exception (path : string) : string :=
  "Error inserting text: [Errno 2] No such file or directory: '"
  +:+ path +:+ "'".
Definition invalid_line_error (insert_line : Z) (n : nat) : string :=
  "Error: Invalid insert_line " +:+ of_int insert_line +:+ ". File has "
  +:+ of_int (Z.of_nat n) +:+ " lines.".
Definition inserted (insert_line : Z) : string :=
  "Successfully inserted text after line " +:+ of_int insert_line +:+ ".".

(** The content [_handle_insert] prepares. *)
Definition inserted_content (lines : list string) (insert_line : Z)
    (new_str : string) : string :=
  if (insert_line =? 0)%Z
  then new_str +:+ nl +:+ String.concat "" lines
  else String.concat "" (list_slice_to lines insert_line)
       +:+ new_str +:+ nl
       +:+ String.concat "" (list_slice_from lines insert_line).

(** [_handle_insert]; [insert_line] is the value of that key of the
    parameters, [None] when it is absent. *)
Definition _handle_insert (self : t) (path : string) (p : params)
    (insert_line : option Z) : string * t :=
  if bool_decide (fs self !! path = None)
  then (not_found_error path, self)
  else
    let insert_line := default 0%Z insert_line in
    let new_str := default "" (new_str p) in
    let confirm := default true (confirm p) in
    let '(backup_path, self) := _create_backup self path in
    match TextIO.readlines (fs self) path with
    | None => (insert_exception path, self)
    | Some lines =>
        if (insert_line <? 0)%Z || (insert_line >? Z.of_nat (length lines))%Z
        then (invalid_line_error insert_line (length lines), self)
        else
          let new_content := inserted_content lines insert_line new_str in
          if confirm
          then (confirm_edit
                  (unified_diff (String.concat "" lines) new_content
                     ("a/" +:+ path) ("b/" +:+ path)),
                self)
          else
            let self :=
              with_fs self (TextIO.write (fs self) path new_content) in
            let self :=
              with_last_edit self path
                {| backup_path := backup_path;
                   op := Insert;
                   old_content := String.concat "" lines;
                   new_content := new_content |} in
            (inserted insert_line, self)
    end.

End Handlers.

End TextEditorTool.

(** ** Finder: the content search of [tools/search_tool.py] *)

Module SearchTool.
Import PyStr.

(** One line of the context of a match, and a match. *)
Record ContextLine : Type := mkContext {
  ctx_line_number : Z;
  ctx_content : string;
  is_match : bool
}.

Record ContentMatch : Type := mkMatch {
  line_number : Z;
  content : string;
  context : list ContextLine
}.

(** ASCII lower case, for a search that ignores case. *)
Definition lower_char (c : ascii) : ascii :=
  let n := nat_of_ascii c in
  if (65 <=? n)%nat && (n <=? 90)%nat then ascii_of_nat (n + 32) else c.

Fixpoint lower (s : string) : string :=
  match s with
  | "" => ""
  | String c s' => String (lower_char c) (lower s')
  end.

(** [sub in s]. *)
Fixpoint contains (sub s : string) : bool :=
  startswith s sub
  || match s with
     | "" => false
     | String _ s' => contains sub s'
     end.

(** [pattern.search(line)] for the escaped query: a literal search. *)
Definition line_matches (query : string) (case_sensitive : bool)
    (line : string) : bool :=
  if case_sensitive then contains query line
  else contains (lower query) (lower line).

(** [s.rstrip()]: trailing white space removed. *)
Definition is_space (c : ascii) : bool :=
  let n := nat_of_ascii c in
  ((9 <=? n)%nat && (n <=? 13)%nat)
  || ((28 <=? n)%nat && (n <=? 32)%nat).

Fixpoint rstrip_space (s : string) : string :=
  match s with
  | "" => ""
  | String a s' =>
      match rstrip_space s' with
      | "" => if is_space a then "" else String a ""
      | r => String a r
      end
  end.

(** The context of the match on line [i] (counted from 0). *)
Definition context_of (lines : list string) (i : nat) : list ContextLine :=
  let context_start := Nat.max 0 (i - 2) in
  let context_end := Nat.min (length lines) (i + 3) in
  map
    (fun j =>
       {| ctx_line_number := Z.of_nat j + 1;
          ctx_content := rstrip_space (default "" (lines !! j));
          is_match := bool_decide (j = i) |})
    (seq context_start (context_end - context_start)).

(** [_search_file_content]: a file that cannot be read has no match. *)
Definition _search_file_content (fs : filesystem) (query file_path : string)
    (case_sensitive : bool) : list ContentMatch :=
  match TextIO.readlines fs file_path with
  | None => []
  | Some lines =>
      omap
        (fun '(i, line) =>
           if line_matches query case_sensitive line
           then Some {| line_number := Z.of_nat i + 1;
                        content := rstrip_space line;
                        context := context_of lines i |}
           else None)
        (imap pair lines)
  end.

(** The files the search skips: those it cannot open, those of more than
    1 MiB and those with a null byte among their first 1024 bytes. *)
Definition skipped (fs : filesystem) (file_path : string) : bool :=
  match fs !! file_path with
  | None => true
  | Some bytes =>
      (len bytes >? 1024 * 1024)%Z
      || contains_char "000"%char (str_take 1024 bytes)
  end.

(** The loop of [_search_content_in_files] over [all_files]. *)
Fixpoint search_loop (fs : filesystem) (query : string)
    (case_sensitive : bool) (max_results max_per_file : Z)
    (all_files : list string) (results : Dict.t (list ContentMatch))
    (total_matches : Z) : Dict.t (list ContentMatch) :=
  match all_files with
  | [] => results
  | file_path :: all_files' =>
      if skipped fs file_path
      then search_loop fs query case_sensitive max_results max_per_file
             all_files' results total_matches
      else
        let file_matches :=
          _search_file_content fs query file_path case_sensitive in
        if bool_decide (file_matches = [])
        then search_loop fs query case_sensitive max_results max_per_file
               all_files' results total_matches
        else
          let file_matches := list_slice_to file_matches max_per_file in
          let results := Dict.set results file_path file_matches in
          let total_matches :=
            (total_matches + Z.of_nat (length file_matches))%Z in
          if (total_matches >=? max_results)%Z then results
          else search_loop fs query case_sensitive max_results max_per_file
                 all_files' results total_matches
  end.

(** [_search_content_in_files], on the files [all_files] that
    [get_all_files(directory)] returned. *)
Definition _search_content_in_files (fs : filesystem) (query : string)
    (all_files : list string) (case_sensitive : bool)
    (max_results max_per_file : Z) : Dict.t (list ContentMatch) :=
  OutputLimiter.limit_content_matches
    (search_loop fs query case_sensitive max_results max_per_file
       all_files [] 0)
    max_results max_per_file.

(** The number of matches of a result. *)
Definition total {A} (results : Dict.t (list A)) : Z :=
  foldr (fun kv n => (Z.of_nat (length kv.2) + n)%Z) 0%Z results.

(** No file of a result has more than [cap] matches. *)
Definition capped {A} (cap : Z) (results : Dict.t (list A)) : Prop :=
  Forall (fun kv => (Z.of_nat (length kv.2) <= cap)%Z) results.

(** The fuzzy search of file names.  [list.sort] is stable, also with
    [reverse=True]: of two matches with the same score the one that came
    first stays first. *)
Fixpoint insert_by_score (x : OutputLimiter.FileMatch)
    (l : list OutputLimiter.FileMatch) : list OutputLimiter.FileMatch :=
  match l with
  | [] => [x]
  | y :: l' =>
      if (OutputLimiter.score y <=? OutputLimiter.score x)%Z then x :: l
      else y :: insert_by_score x l'
  end.

Definition sort_by_score (l : list OutputLimiter.FileMatch)
    : list OutputLimiter.FileMatch :=
  foldr insert_by_score [] l.

(** Matches in the order of the scores, the highest first. *)
Definition by_score : relation OutputLimiter.FileMatch :=
  fun a b => (OutputLimiter.score b <= OutputLimiter.score a)%Z.

Section Fuzzy.

(** [fuzz.partial_ratio], of the library fuzzywuzzy. *)
Variable partial_ratio : string -> string -> Z.

(** [_fuzzy_search_files], on the files [all_files] that [get_all_files()]
    returned. *)
Definition _fuzzy_search_files (query : string) (all_files : list string)
    (max_results : Z) : list OutputLimiter.FileMatch :=
  let matches :=
    omap
      (fun file_path =>
         let filename := PosixPath.basename file_path in
         let score := partial_ratio (lower query) (lower filename) in
         if (score >? 50)%Z
         then Some {| OutputLimiter.path := file_path;
                      OutputLimiter.score := score;
                      OutputLimiter.filename := filename |}
         else None)
      all_files in
  OutputLimiter.limit_file_matches (sort_by_score matches) max_results.

End Fuzzy.

End SearchTool.

(** ** The ignore file and the walk of [utils/path_validator.py] *)

Module IgnoreFile.
Import PyStr PosixPath.

(** [s.strip()]: white space removed at both ends. *)
Fixpoint lstrip_space (s : string) : string :=
  match s with
  | String a s' => if SearchTool.is_space a then lstrip_space s' else s
  | "" => ""
  end.

Definition strip (s : string) : string :=
  lstrip_space (SearchTool.rstrip_space s).

(** [_load_ignore_patterns]: the lines of the file, stripped, without the
    empty ones and the comments; no pattern when there is no file. *)
Definition _load_ignore_patterns (fs : filesystem) (toolignore_path : string)
    : list string :=
  match TextIO.readlines fs toolignore_path with
  | None => []
  | Some lines =>
      filter (fun line => line <> "" /\ startswith line "#" = false)
        (map strip lines)
  end.

(** A text without a line end inside. *)
Definition one_line (s : string) : Prop :=
  contains_char LF s = false /\ contains_char CR s = false.

(** The bytes of a file of the lines [lines], each with its line end, CR LF
    where the flag is set and LF otherwise, and then of [last], which has
    no line end. *)
Fixpoint text_of (lines : list (string * bool)) (last : string) : string :=
  match lines with
  | [] => last
  | (line, dos) :: lines' =>
      line +:+ (if dos : bool then String CR nl else nl)
      +:+ text_of lines' last
  end.

(** [PathValidator.__init__], with the patterns read from the file. *)
Definition __init__ (fs : filesystem) (cwd : string)
    (allowed_folders : list string) (toolignore_path repo_path : string)
    : PathValidator.t :=
  let repo := abspath cwd repo_path in
  PathValidator.init cwd allowed_folders
    (_load_ignore_patterns fs
       (if negb (isabs toolignore_path) then join2 repo toolignore_path
        else toolignore_path))
    repo_path.

End IgnoreFile.

Module FileWalk.
Import PosixPath.

(** A directory as [os.walk] lists it: its sub-directories and its files,
    by name. *)
#[local] Set Warnings "-register-all".
Inductive tree : Type :=
| Dir (dirs : list (string * tree)) (files : list string).

(** Induction on a directory, with the property for its sub-directories. *)
Fixpoint tree_induction (P : tree -> Prop)
    (step : forall dirs files,
        Forall (fun entry => P entry.2) dirs -> P (Dir dirs files))
    (d : tree) : P d :=
  match d with
  | Dir dirs files =>
      step dirs files
        ((fix go (ds : list (string * tree))
            : Forall (fun entry => P entry.2) ds :=
            match ds with
            | [] => @List.Forall_nil _ (fun entry => P entry.2)
            | (name, sub) :: ds' =>
                @List.Forall_cons _ (fun entry => P entry.2) (name, sub) ds'
                  (tree_induction P step sub) (go ds')
            end) dirs)
  end.

(** The files a walk keeps. *)
Definition kept (pv : PathValidator.t) (file_path : string) : Prop :=
  PathValidator.is_path_ignored pv file_path = false
  /\ PathValidator.is_path_allowed pv file_path = true.

(** The walk of [get_all_files] from [root]: the files of a directory are
    filtered by both rules, and the walk does not descend into a
    sub-directory that is ignored. *)
Fixpoint walk (pv : PathValidator.t) (root : string) (d : tree)
    : list string :=
  match d with
  | Dir dirs files =>
      filter (kept pv) (map (join2 root) files)
      ++ (fix walk_dirs (ds : list (string * tree)) : list string :=
            match ds with
            | [] => []
            | (name, sub) :: ds' =>
                (if PathValidator.is_path_ignored pv (join2 root name)
                 then []
                 else walk pv (join2 root name) sub)
                ++ walk_dirs ds'
            end) dirs
  end.

(** [get_all_files]. *)
Definition get_all_files (pv : PathValidator.t) (directory : string)
    (d : tree) : list string :=
  walk pv
    (if negb (isabs directory)
     then join2 (PathValidator.repo_path pv) directory
     else directory)
    d.

(** Every file below [root], in the order of the walk. *)
Fixpoint all_files (root : string) (d : tree) : list string :=
  match d with
  | Dir dirs files =>
      map (join2 root) files
      ++ (fix all_dirs (ds : list (string * tree)) : list string :=
            match ds with
            | [] => []
            | (name, sub) :: ds' =>
                all_files (join2 root name) sub ++ all_dirs ds'
            end) dirs
  end.

(** The names of a listing: components that are neither "." nor "..". *)
Definition entry_name (name : string) : Prop :=
  plain name /\ name <> "..".

Fixpoint well_named (d : tree) : Prop :=
  match d with
  | Dir dirs files =>
      Forall entry_name files
      /\ (fix names_ok (ds : list (string * tree)) : Prop :=
            match ds with
            | [] => True
            | (name, sub) :: ds' =>
                entry_name name /\ well_named sub /\ names_ok ds'
            end) dirs
  end.

End FileWalk.

(** ** ToolRegistry: [tools/tool_registry.py] *)

Module ToolRegistry.

Section Registry.

(** The functions that are registered, and what is said of a parameter. *)
Variables (F Info : Type).

(** A tool specification; [cache_control] tells whether the key is
    there. *)
Record tool_spec : Type := mkSpec {
  name : string;
  description : string;
  properties : Dict.t Info;
  required : list string;
  cache_control : bool
}.

Record tool : Type := mkTool {
  func : F;
  spec : tool_spec
}.

(** [self.tools]. *)
Definition t : Type := Dict.t tool.

(** [register]; an absent [parameters] or [required_params] is empty. *)
Definition register (self : t) (name : string) (func : F)
    (description : string) (parameters : option (Dict.t Info))
    (required_params : option (list string)) : t :=
  let parameters := default [] parameters in
  let required_params := default [] required_params in
  let properties :=
    foldl (fun properties kv => Dict.set properties kv.1 kv.2) []
      parameters in
  Dict.set self name
    {| func := func;
       spec := {| name := name;
                  description := description;
                  properties := properties;
                  required := required_params;
                  cache_control := false |} |}.

(** [get_tool]. *)
Definition get_tool (self : t) (name : string) : option F :=
  func <$> Dict.get self name.

(** [list_tools]. *)
Definition list_tools (self : t) : list string := map fst self.

Definition mark (tl : tool) : tool :=
  {| func := func tl;
     spec := {| name := name (spec tl);
                description := description (spec tl);
                properties := properties (spec tl);
                required := required (spec tl);
                cache_control := true |} |}.

(** [get_tool_specs]: the specifications are the objects the registry
    holds, so the key set on the last one is set in the registry too. *)
Definition get_tool_specs (self : t) : list tool_spec * t :=
  match self with
  | [] => ([], self)
  | _ =>
      let self' :=
        alter (fun kv => (kv.1, mark kv.2)) (length self - 1) self in
      (map (fun kv => spec kv.2) self', self')
  end.

End Registry.

Arguments mkSpec {Info}.
Arguments name {Info}.
Arguments description {Info}.
Arguments properties {Info}.
Arguments required {Info}.
Arguments cache_control {Info}.
Arguments mkTool {F Info}.
Arguments func {F Info}.
Arguments spec {F Info}.
Arguments register {F Info}.
Arguments get_tool {F Info}.
Arguments list_tools {F Info}.
Arguments mark {F Info}.
Arguments get_tool_specs {F Info}.

End ToolRegistry.

(** ** Sample states *)

Module Sample.

(** A stand-in for [difflib]: the two header lines of a diff. *)
Definition diff (old new fromfile tofile : string) : string :=
  "--- " +:+ fromfile +:+ nl +:+ "+++ " +:+ tofile +:+ nl.

(** A repository at [/home/u/repo]. *)
Definition validator (allowed patterns : list string) : PathValidator.t :=
  PathValidator.init "/home/u" allowed patterns "repo".

(** An editor over a file system with one file. *)
Definition editor : TextEditorTool.t :=
  {| TextEditorTool.backup_dir := "/home/u/repo/.backups";
     TextEditorTool.last_edits := ∅;
     TextEditorTool.fs := {[ "/home/u/repo/b.txt" := "foo" ]};
     TextEditorTool.directories :=
       {[ "/"; "/home"; "/home/u"; "/home/u/repo";
          "/home/u/repo/.backups" ]};
     TextEditorTool.getcwd := "/home/u/repo" |}.

Definition edit (old new : option string) (confirm : option bool)
    : TextEditorTool.params :=
  {| TextEditorTool.old_str := old;
     TextEditorTool.new_str := new;
     TextEditorTool.file_text := None;
     TextEditorTool.confirm := confirm |}.

Definition creation (text : string) (confirm : option bool)
    : TextEditorTool.params :=
  {| TextEditorTool.old_str := None;
     TextEditorTool.new_str := None;
     TextEditorTool.file_text := Some text;
     TextEditorTool.confirm := confirm |}.

(** Two files of the same name, and a file of two lines. *)
Definition editor2 : TextEditorTool.t :=
  {| TextEditorTool.backup_dir := "/home/u/repo/.backups";
     TextEditorTool.last_edits := ∅;
     TextEditorTool.fs :=
       {[ "/home/u/repo/a/x.txt" := "one";
          "/home/u/repo/b/x.txt" := "two";
          "/home/u/repo/notes.txt" := "a" +:+ nl +:+ "b" +:+ nl ]};
     TextEditorTool.directories :=
       {[ "/"; "/home"; "/home/u"; "/home/u/repo";
          "/home/u/repo/.backups"; "/home/u/repo/a"; "/home/u/repo/b" ]};
     TextEditorTool.getcwd := "/home/u/repo" |}.

End Sample.

(** * Properties *)

#[local] Arguments String.append !_ _ / : simpl nomatch.

Module PyStrFacts.
Import PyStr.

Lemma str_length_app (a b : string) :
  String.length (a +:+ b) = String.length a + String.length b.
Proof. induction a as [|c a IH]; simpl; [done | by rewrite IH]. Qed.

Lemma str_app_assoc (a b c : string) : (a +:+ b) +:+ c = a +:+ (b +:+ c).
Proof. induction a as [|x a IH]; simpl; [done | by rewrite IH]. Qed.

Lemma startswith_app (pre r : string) : startswith (pre +:+ r) pre = true.
Proof.
  induction pre as [|c pre IH]; simpl; [done |].
  by rewrite Ascii.eqb_refl, IH.
Qed.

Lemma startswith_inv (s pre : string) :
  startswith s pre = true -> exists r, s = pre +:+ r.
Proof.
  revert s. induction pre as [|c pre IH]; intros s H; simpl in *.
  - by exists s.
  - destruct s as [|a s]; [done |].
    apply andb_true_iff in H as [->%Ascii.eqb_eq H].
    destruct (IH s H) as [r ->]. by exists r.
Qed.

(** *** [split] and [join] *)

Lemma split_nonempty (c : ascii) (s : string) : split c s <> [].
Proof.
  induction s as [|a s IH]; simpl; [done |].
  destruct (Ascii.eqb a c); [done |]. by destruct (split c s).
Qed.

Lemma split_app_sep (c : ascii) (a b : string) :
  split c (a +:+ String c b) = split c a ++ split c b.
Proof.
  induction a as [|x a IH]; simpl.
  - by rewrite Ascii.eqb_refl.
  - rewrite IH. destruct (Ascii.eqb x c); [done |].
    pose proof (split_nonempty c a).
    by destruct (split c a).
Qed.

Lemma split_no_sep (c : ascii) (x : string) :
  contains_char c x = false -> split c x = [x].
Proof.
  induction x as [|a x IH]; simpl; [done |].
  intros [Ha Hx]%orb_false_iff. rewrite Ha, (IH Hx). done.
Qed.

Lemma split_parts_no_sep (c : ascii) (s : string) :
  Forall (fun x => contains_char c x = false) (split c s).
Proof.
  induction s as [|a s IH]; simpl.
  - by repeat constructor.
  - destruct (Ascii.eqb a c) eqn:Ha; [by constructor |].
    destruct (split c s) as [|w ws].
    + constructor; [simpl; by rewrite Ha | done].
    + inversion_clear IH. constructor; [| done]. simpl. by rewrite Ha.
Qed.

Lemma split_join (c : ascii) (l : list string) :
  l <> [] -> Forall (fun x => contains_char c x = false) l ->
  split c (join (String c "") l) = l.
Proof.
  unfold join. induction l as [|x l IH]; [done |].
  intros _ Hl. inversion_clear Hl as [|? ? Hx Hl'].
  destruct l as [|y l].
  - simpl. by apply split_no_sep.
  - change (String.concat (String c "") (x :: y :: l))
      with (x +:+ String c "" +:+ String.concat (String c "") (y :: l)).
    change (x +:+ String c "" +:+ ?r) with (x +:+ String c r).
    rewrite split_app_sep, (split_no_sep c x Hx), IH; done.
Qed.

End PyStrFacts.

Module PosixPathFacts.
Import PyStr PosixPath PyStrFacts.

(** *** The components [normpath] keeps *)

Lemma comps_ok_nil (initial : nat) : comps_ok initial [].
Proof. split; [constructor | intros j Hj; by rewrite lookup_nil in Hj]. Qed.

Lemma dotdot_leading_prefix (initial : nat) (l l' : list string) :
  dotdot_leading initial (l ++ l') -> dotdot_leading initial l.
Proof.
  intros H j Hj. pose proof (lookup_lt_Some _ _ _ Hj) as Hlt.
  destruct (H j) as [Hi Hbelow]; [by rewrite lookup_app_l |].
  split; [done |]. intros j' Hj'.
  specialize (Hbelow j' Hj'). rewrite lookup_app_l in Hbelow by lia. done.
Qed.

Lemma comps_ok_prefix (initial : nat) (l l' : list string) :
  comps_ok initial (l ++ l') -> comps_ok initial l.
Proof.
  intros [HF Hd]. split; [by apply Forall_app in HF as [? _] |].
  by eapply dotdot_leading_prefix.
Qed.

(** When a ".." may be appended. *)
Lemma dotdot_snoc (initial : nat) (l : list string) :
  dotdot_leading initial l ->
  (initial = 0 /\ l = []) \/ last l = Some ".." ->
  dotdot_leading initial (l ++ [".."]).
Proof.
  intros Hd Hcase j Hj.
  assert (initial = 0 /\ forall j', j' < length l -> l !! j' = Some "..")
    as [Hi Hall].
  { destruct Hcase as [[-> ->] | Hlast]; [split; [done | simpl; lia] |].
    rewrite last_lookup in Hlast.
    destruct (Hd _ Hlast) as [Hi Hbelow]. split; [done |].
    intros j' Hj'.
    destruct (decide (j' = pred (length l))) as [-> | Hne]; [done |].
    apply Hbelow. lia. }
  split; [done |]. intros j' Hj'.
  pose proof (lookup_lt_Some _ _ _ Hj) as Hlt.
  rewrite length_app in Hlt. simpl in Hlt.
  rewrite lookup_app_l by lia. apply Hall. lia.
Qed.

Lemma dotdot_snoc_other (initial : nat) (l : list string) (x : string) :
  dotdot_leading initial l -> x <> ".." ->
  dotdot_leading initial (l ++ [x]).
Proof.
  intros Hd Hx j Hj.
  assert (j < length l) as Hlt.
  { destruct (decide (j < length l)); [done |].
    rewrite lookup_app_r in Hj by lia.
    destruct (j - length l) as [|m] eqn:E; simpl in Hj; [congruence |].
    by rewrite lookup_nil in Hj. }
  rewrite lookup_app_l in Hj by done.
  destruct (Hd j Hj) as [Hi Hbelow]. split; [done |].
  intros j' Hj'. rewrite lookup_app_l by lia. by apply Hbelow.
Qed.

Lemma norm_step_ok (initial : nat) (l : list string) (comp : string) :
  contains_char "/" comp = false ->
  comps_ok initial l -> comps_ok initial (norm_step initial l comp).
Proof.
  intros Hsep [HF Hd]. unfold norm_step.
  destruct (bool_decide (comp = "")) eqn:E1; [done |].
  destruct (bool_decide (comp = ".")) eqn:E2; [done |].
  apply bool_decide_eq_false in E1, E2. simpl.
  destruct (bool_decide (comp = "..")) eqn:E3; simpl.
  - apply bool_decide_eq_true in E3 as ->.
    destruct (bool_decide (initial = 0) && bool_decide (l = [])) eqn:E4;
      simpl.
    + apply andb_true_iff in E4 as [Hi%bool_decide_eq_true Hl%bool_decide_eq_true].
      split; [apply Forall_app; split; [done | by repeat constructor] |].
      apply dotdot_snoc; auto.
    + destruct (bool_decide (last l = Some "..")) eqn:E5.
      * apply bool_decide_eq_true in E5.
        split; [apply Forall_app; split; [done | by repeat constructor] |].
        apply dotdot_snoc; auto.
      * destruct l as [|x l'] using rev_ind; [apply comps_ok_nil |].
        rewrite removelast_last. apply (comps_ok_prefix _ _ [x]). by split.
  - apply bool_decide_eq_false in E3.
    split; [apply Forall_app; split; [done | by repeat constructor] |].
    by apply dotdot_snoc_other.
Qed.

Lemma fold_norm_step_ok (initial : nat) (comps acc : list string) :
  Forall (fun x => contains_char "/" x = false) comps ->
  comps_ok initial acc ->
  comps_ok initial (fold_left (norm_step initial) comps acc).
Proof.
  revert acc. induction comps as [|x comps IH]; intros acc HF Hacc; [done |].
  inversion_clear HF. simpl. apply IH; [done |]. by apply norm_step_ok.
Qed.

(** Normalized components are left as they are. *)
Lemma norm_step_keeps (initial : nat) (acc : list string) (x : string)
    (l : list string) :
  comps_ok initial (acc ++ x :: l) ->
  norm_step initial acc x = acc ++ [x].
Proof.
  intros [HF Hd]. unfold norm_step.
  apply Forall_app in HF as [_ HF]. inversion_clear HF as [|? ? [H1 [H2 _]] _].
  rewrite (bool_decide_eq_false_2 _ H1), (bool_decide_eq_false_2 _ H2). simpl.
  destruct (bool_decide (x = "..")) eqn:E3; simpl; [| done].
  apply bool_decide_eq_true in E3 as ->.
  destruct (Hd (length acc)) as [-> Hbelow].
  { by rewrite list_lookup_middle. }
  destruct acc as [|a acc] using rev_ind; [done |].
  rewrite bool_decide_eq_true_2 by done.
  rewrite (bool_decide_eq_false_2 (acc ++ [a] = [])) by (by destruct acc).
  simpl. rewrite bool_decide_eq_true_2; [done |].
  rewrite last_snoc. specialize (Hbelow (length acc)).
  rewrite length_app in Hbelow. simpl in Hbelow.
  rewrite <- (assoc_L (++)) in Hbelow. simpl in Hbelow.
  rewrite list_lookup_middle in Hbelow by done. apply Hbelow. lia.
Qed.

Lemma fold_norm_step_keeps (initial : nat) (l acc : list string) :
  comps_ok initial (acc ++ l) ->
  fold_left (norm_step initial) l acc = acc ++ l.
Proof.
  revert acc. induction l as [|x l IH]; intros acc H; simpl.
  - by rewrite app_nil_r.
  - rewrite (norm_step_keeps _ _ _ l H).
    rewrite IH; rewrite <- (assoc_L (++)); done.
Qed.


(** *** [normpath] *)

Lemma initial_slashes_le (p : string) : initial_slashes p <= 2.
Proof.
  unfold initial_slashes.
  destruct (negb _); [lia |]. destruct (_ && _); lia.
Qed.

Lemma initial_slashes_isabs (p : string) :
  isabs p = true <-> initial_slashes p <> 0.
Proof.
  unfold initial_slashes, isabs.
  destruct (startswith p "/"); simpl; [| by split].
  destruct (_ && _); split; (done || lia).
Qed.

Lemma normpath_build (p : string) :
  p <> "" ->
  exists comps,
    comps_ok (initial_slashes p) comps
    /\ normpath p = build (initial_slashes p) comps.
Proof.
  intros Hp. unfold normpath. rewrite bool_decide_eq_false_2 by done.
  eexists. split; [| reflexivity].
  apply fold_norm_step_ok; [apply split_parts_no_sep | apply comps_ok_nil].
Qed.

Lemma join_not_abs (initial : nat) (comps : list string) :
  comps_ok initial comps -> startswith (PyStr.join "/" comps) "/" = false.
Proof.
  intros [HF _]. destruct comps as [|x comps]; [done |].
  inversion_clear HF as [|? ? [Hx [_ Hsep]] _].
  destruct x as [|a x]; [done |]. simpl in Hsep.
  apply orb_false_iff in Hsep as [Ha _].
  unfold PyStr.join. destruct comps; simpl; by rewrite Ha.
Qed.

Lemma build_abs (initial : nat) (comps : list string) :
  initial <> 0 -> isabs (build initial comps) = true.
Proof.
  intros Hi. unfold build, isabs.
  by destruct initial as [|n].
Qed.

(** The components of a built path, as [split] returns them. *)
Lemma split_build (initial : nat) (comps : list string) :
  comps_ok initial comps -> build initial comps <> "." ->
  exists l, split "/" (build initial comps) = replicate initial "" ++ l
            /\ (l = comps \/ (l = [""] /\ comps = [])).
Proof.
  intros [HF Hd] Hne. unfold build in *.
  assert (Forall (fun x => contains_char "/" x = false) comps) as Hsep.
  { eapply Forall_impl; [exact HF |]. by intros x (_ & _ & ?). }
  assert (forall s, exists l, split "/" s = l /\
            (s = PyStr.join "/" comps ->
             l = comps \/ (l = [""] /\ comps = []))) as Htail.
  { intros s. eexists. split; [done |]. intros ->.
    destruct comps as [|x comps]; [by right |].
    left. by apply split_join. }
  destruct (bool_decide _) eqn:E; [done |]. clear E Hne.
  induction initial as [|n IH].
  - simpl. destruct (Htail (PyStr.join "/" comps)) as (l & Hl & Hcase).
    exists l. split; [done | by apply Hcase].
  - simpl.
    destruct IH as (l & Hl & Hcase).
    { intros j Hj. destruct (Hd j Hj) as [? _]. done. }
    exists l. by rewrite Hl.
Qed.

Lemma fold_norm_step_empties (initial n : nat) (l acc : list string) :
  fold_left (norm_step initial) (replicate n "" ++ l) acc
  = fold_left (norm_step initial) l acc.
Proof. induction n as [|n IH]; simpl; done. Qed.

Lemma initial_slashes_build (initial : nat) (comps : list string) :
  initial <= 2 -> comps_ok initial comps ->
  build initial comps <> "." ->
  initial_slashes (build initial comps) = initial.
Proof.
  intros Hi Hok Hne. pose proof (join_not_abs _ _ Hok) as Hj.
  unfold build in *. destruct (bool_decide _) eqn:E; [done |].
  unfold initial_slashes.
  destruct initial as [|[|[|?]]]; [| | | lia]; simpl in *.
  - by rewrite Hj.
  - destruct (PyStr.join "/" comps) as [|a r]; [done |].
    simpl in Hj. rewrite andb_true_r in Hj. simpl. rewrite Hj. done.
  - destruct (PyStr.join "/" comps) as [|a r]; [done |].
    simpl in Hj. rewrite andb_true_r in Hj. simpl. rewrite Hj. done.
Qed.

Lemma normpath_of_build (initial : nat) (comps : list string) :
  initial <= 2 -> comps_ok initial comps ->
  normpath (build initial comps) = build initial comps.
Proof.
  intros Hi Hok.
  destruct (decide (build initial comps = ".")) as [-> | Hne]; [done |].
  assert (build initial comps <> "") as Hne'.
  { unfold build. by destruct (bool_decide _) eqn:E;
      [| apply bool_decide_eq_false in E]. }
  unfold normpath. rewrite bool_decide_eq_false_2 by done.
  rewrite initial_slashes_build by done.
  destruct (split_build _ _ Hok Hne) as (l & -> & Hl).
  rewrite fold_norm_step_empties.
  assert (fold_left (norm_step initial) l [] = comps) as ->; [| done].
  destruct Hl as [-> | [-> ->]]; [| done].
  by apply fold_norm_step_keeps.
Qed.

(** [normpath] is idempotent: its results are normalized. *)
Lemma normpath_idem (p : string) : normpath (normpath p) = normpath p.
Proof.
  destruct (decide (p = "")) as [-> | Hp]; [done |].
  destruct (normpath_build p Hp) as (comps & Hok & ->).
  apply normpath_of_build; [apply initial_slashes_le | done].
Qed.

Lemma normpath_abs (p : string) :
  isabs p = true -> isabs (normpath p) = true.
Proof.
  intros Habs. assert (p <> "") as Hp by (by intros ->).
  destruct (normpath_build p Hp) as (comps & Hok & ->).
  apply build_abs. by apply initial_slashes_isabs.
Qed.

(** The normalized form of an absolute path has no ".." component. *)
Lemma normpath_abs_no_dotdot (p : string) :
  isabs p = true -> ".." ∉ split "/" (normpath p).
Proof.
  intros Habs. assert (p <> "") as Hp by (by intros ->).
  destruct (normpath_build p Hp) as (comps & Hok & ->).
  apply initial_slashes_isabs in Habs.
  assert (build (initial_slashes p) comps <> ".") as Hne.
  { intros E. pose proof (build_abs _ comps Habs) as H.
    by rewrite E in H. }
  destruct (split_build _ _ Hok Hne) as (l & -> & Hl).
  intros [Hin | Hin]%elem_of_app.
  - by apply elem_of_replicate in Hin as [? _].
  - destruct Hl as [-> | [-> _]].
    + apply list_elem_of_lookup in Hin as [j Hj].
      destruct Hok as [_ Hd]. by destruct (Hd j Hj).
    + by apply list_elem_of_singleton in Hin.
Qed.

End PosixPathFacts.

Module PathFacts.
Import PyStr PosixPath PyStrFacts PosixPathFacts.

Lemma isabs_inv (p : string) : isabs p = true -> exists r, p = String "/" r.
Proof. intros [r ->]%startswith_inv. by exists r. Qed.

Lemma startswith_app_l (a x pre : string) :
  startswith a pre = true -> startswith (a +:+ x) pre = true.
Proof.
  intros [r ->]%startswith_inv. rewrite str_app_assoc.
  apply startswith_app.
Qed.

Lemma startswith_sep_contains (x : string) :
  contains_char "/" x = false -> startswith x "/" = false.
Proof.
  destruct x as [|a x]; [done |]. simpl.
  intros [-> _]%orb_false_iff. done.
Qed.

(** *** [join] *)

Lemma join2_abs (a b : string) :
  isabs a = true -> isabs b = false -> isabs (join2 a b) = true.
Proof.
  unfold isabs, join2. intros Ha ->.
  destruct (_ || _); rewrite ?str_app_assoc; by apply startswith_app_l.
Qed.

Lemma join2_keeps_prefix (a b pre : string) :
  startswith b "/" = false -> startswith a pre = true ->
  startswith (join2 a b) pre = true.
Proof.
  unfold join2. intros -> Ha.
  destruct (_ || _); rewrite ?str_app_assoc; by apply startswith_app_l.
Qed.

Lemma join_keeps_prefix (a pre : string) (p : list string) :
  Forall (fun b => startswith b "/" = false) p ->
  startswith a pre = true -> startswith (join a p) pre = true.
Proof.
  unfold join. revert a.
  induction p as [|b p IH]; intros a HF Ha; simpl; [done |].
  inversion_clear HF. apply IH; [done |]. by apply join2_keeps_prefix.
Qed.

(** *** [dirname] *)

Lemma rstrip_empty (c : ascii) (s : string) :
  rstrip c s = "" -> s = repeat_char c (String.length s).
Proof.
  induction s as [|a s IH]; simpl; [done |].
  destruct (rstrip c s) eqn:E; [| done].
  destruct (Ascii.eqb a c) eqn:Ha; [| done].
  apply Ascii.eqb_eq in Ha as ->. intros _. by rewrite <- IH.
Qed.

Lemma rfind_nonneg (c : ascii) (s : string) :
  (0 <= rfind c (String c s))%Z.
Proof.
  unfold rfind. simpl. destruct (rfind_nat c s); [lia |].
  rewrite Ascii.eqb_refl. lia.
Qed.

Lemma dirname_abs (p : string) : isabs p = true -> isabs (dirname p) = true.
Proof.
  intros [r ->]%isabs_inv. unfold dirname.
  pose proof (rfind_nonneg "/" r) as Hi.
  set (i := (rfind "/" (String "/" r) + 1)%Z) in *.
  assert (exists h, slice_to (String "/" r) i = String "/" h) as [h ->].
  { unfold slice_to. destruct (0 <=? i)%Z eqn:E; [| apply Z.leb_gt in E; lia].
    destruct (Z.to_nat i) as [|k] eqn:Ek; [lia |]. simpl. by eexists. }
  destruct (_ && _) eqn:E; [| done].
  apply andb_true_iff in E as [_ E]. apply negb_true_iff in E.
  apply bool_decide_eq_false in E.
  simpl. destruct (rstrip "/" h) eqn:Er; [| done].
  exfalso. apply E. simpl. f_equal. by apply rstrip_empty.
Qed.

(** *** [relpath] and the components of a path *)

Lemma commonprefix_full (l1 l2 : list string) :
  length l1 <= length (commonprefix l1 l2) -> l1 `prefix_of` l2.
Proof.
  revert l2. induction l1 as [|x l1 IH]; intros l2 H.
  - apply prefix_nil.
  - destruct l2 as [|y l2]; simpl in H; [lia |].
    destruct (bool_decide (x = y)) eqn:E; simpl in H; [| lia].
    apply bool_decide_eq_true in E as ->.
    apply prefix_cons, IH. lia.
Qed.

Lemma segments_no_abs (s : string) :
  Forall (fun b => startswith b "/" = false) (segments s).
Proof.
  unfold segments. apply Forall_forall. intros x [_ Hx]%list_elem_of_filter.
  apply startswith_sep_contains.
  pose proof (split_parts_no_sep "/" s) as HF.
  by apply (proj1 (Forall_forall _ _) HF).
Qed.

Lemma relpath_inside (cwd path start rel : string) :
  relpath cwd path start = Some rel -> startswith rel ".." = false ->
  segments (abspath cwd start) `prefix_of` segments (abspath cwd path).
Proof.
  unfold relpath. destruct (bool_decide (path = "")); [done |].
  set (start_list := segments (abspath cwd start)).
  set (path_list := segments (abspath cwd path)).
  intros Hrel Hup. apply commonprefix_full.
  destruct (decide (length start_list
                    <= length (commonprefix start_list path_list)))
    as [| Hlt]; [done | exfalso].
  destruct (length start_list - length (commonprefix start_list path_list))
    as [|k] eqn:Ek; [lia |].
  simpl in Hrel. injection Hrel as <-.
  rewrite join_keeps_prefix in Hup; [done | | done].
  apply Forall_app. split.
  - apply Forall_forall. by intros x [-> _]%elem_of_replicate.
  - apply Forall_drop, segments_no_abs.
Qed.

Lemma segments_app_sep (a r : string) :
  segments (a +:+ String "/" r) = segments a ++ segments r.
Proof. unfold segments. by rewrite split_app_sep, filter_app. Qed.

Lemma within_refl (p : string) : within p p.
Proof. by unfold within. Qed.

(** A sibling whose name extends the name of [root] is not below it, and
    neither is a parent of [root]. *)
Lemma within_examples :
  within "/home/u/repo" "/home/u/repo/src/main.py"
  /\ ~ within "/home/u/repo" "/home/u/repo2/main.py"
  /\ ~ within "/home/u/repo" "/home/u".
Proof.
  unfold within. repeat split.
  - by exists ["src"; "main.py"].
  - by intros [k [=]].
  - by intros [k [=]].
Qed.

Lemma startswith_within (root p : string) :
  startswith p (root +:+ "/") = true -> within root p.
Proof.
  intros [r ->]%startswith_inv. unfold within.
  rewrite str_app_assoc. simpl. rewrite segments_app_sep.
  by apply prefix_app_r.
Qed.

Lemma abspath_normalized (cwd p : string) :
  isabs p = true -> normpath p = p -> abspath cwd p = p.
Proof. unfold abspath. by intros -> ->. Qed.

End PathFacts.

Module PathValidatorFacts.
Import PyStr PosixPath PyStrFacts PosixPathFacts PathFacts PathValidator.

Section Validator.

Variable self : PathValidator.t.
Hypothesis repo_abs : isabs (repo_path self) = true.

Lemma resolve_abs (path : string) : isabs (resolve self path) = true.
Proof.
  unfold resolve. apply normpath_abs.
  set (path' := if startswith path "/" then _ else path).
  destruct (isabs path') eqn:E; simpl; [done |].
  by apply join2_abs.
Qed.

Lemma resolve_normalized (path : string) :
  normpath (resolve self path) = resolve self path.
Proof. apply normpath_idem. Qed.

Lemma allowed_path_abs (allowed_folder : string) :
  isabs (allowed_path self allowed_folder) = true.
Proof.
  unfold allowed_path. destruct (isabs allowed_folder) eqn:E; simpl.
  - by apply normpath_abs.
  - by apply normpath_abs, join2_abs.
Qed.

Lemma allowed_path_normalized (allowed_folder : string) :
  normpath (allowed_path self allowed_folder)
  = allowed_path self allowed_folder.
Proof.
  unfold allowed_path. destruct (negb _); apply normpath_idem.
Qed.

Lemma is_relative_to_within (p start : string) :
  isabs p = true -> normpath p = p ->
  isabs start = true -> normpath start = start ->
  is_relative_to self p start = true -> within start p.
Proof.
  intros Hp1 Hp2 Hs1 Hs2. unfold is_relative_to.
  destruct (relpath (cwd self) p start) as [rel|] eqn:E; [| done].
  intros Hrel%negb_true_iff. unfold within.
  rewrite <- (abspath_normalized (cwd self) p) by done.
  rewrite <- (abspath_normalized (cwd self) start) by done.
  by eapply relpath_inside.
Qed.

Hypothesis repo_normalized : normpath (repo_path self) = repo_path self.

(** What [is_path_allowed] grants, for a normalized absolute path. *)
Lemma is_path_allowed_within (p : string) :
  isabs p = true -> normpath p = p ->
  is_path_allowed self p = true ->
  within (repo_path self) p
  \/ exists allowed_folder,
       allowed_folder ∈ allowed_folders self
       /\ within (allowed_path self allowed_folder) p.
Proof.
  intros Hp1 Hp2. unfold is_path_allowed. rewrite Hp2.
  destruct (bool_decide (p = repo_path self)) eqn:E1; simpl.
  { apply bool_decide_eq_true in E1 as ->. intros _. left. apply within_refl. }
  destruct (bool_decide (p = ".")) eqn:E2.
  { apply bool_decide_eq_true in E2 as ->. done. }
  pose proof (dirname_abs p Hp1) as Hd.
  destruct (bool_decide (dirname p = "")) eqn:E3.
  { apply bool_decide_eq_true in E3. by rewrite E3 in Hd. }
  destruct (bool_decide (dirname p = ".")) eqn:E4.
  { apply bool_decide_eq_true in E4. by rewrite E4 in Hd. }
  simpl.
  destruct (is_relative_to self p (repo_path self)) eqn:E5.
  { intros _. left. by apply is_relative_to_within. }
  destruct (bool_decide (allowed_folders self = [])); [done |].
  intros (af & Hin & Hcase)%existsb_exists.
  right. exists af. split; [by apply list_elem_of_In |].
  apply orb_true_iff in Hcase as [Hcase | Hcase].
  - apply orb_true_iff in Hcase as [Hcase | Hcase].
    + apply bool_decide_eq_true in Hcase as ->. apply within_refl.
    + by apply startswith_within.
  - apply is_relative_to_within; auto using allowed_path_abs,
      allowed_path_normalized.
Qed.

Lemma validate_path_cases (path : string) :
  validate_path self path =
    if is_path_ignored self (resolve self path)
    then (false, ignored_error (resolve self path))
    else if negb (is_path_allowed self (resolve self path))
    then (false, access_denied_error (resolve self path))
    else (true, resolve self path).
Proof.
  unfold validate_path.
  rewrite bool_decide_eq_false_2; [done |].
  unfold resolve. apply normpath_abs_no_dotdot.
  set (path' := if startswith path "/" then _ else path).
  destruct (isabs path') eqn:E; simpl; [done |].
  by apply join2_abs.
Qed.

End Validator.

(** The path that [__init__] stores is absolute and normalized when the
    working directory is absolute. *)
Lemma init_repo_path (cwd : string) (allowed patterns : list string)
    (repo : string) :
  isabs cwd = true ->
  isabs (repo_path (init cwd allowed patterns repo)) = true
  /\ normpath (repo_path (init cwd allowed patterns repo))
     = repo_path (init cwd allowed patterns repo).
Proof.
  intros Hcwd. simpl. unfold abspath. split; [| apply normpath_idem].
  apply normpath_abs. destruct (isabs repo) eqn:E; [done |].
  by apply join2_abs.
Qed.

(** C1: when [validate_path] succeeds, the path it returns is absolute and
    normalized, and it is the repository root or lies below it, or it is
    one of the allowed folders or lies below one. *)
Theorem validate_path_sound (self : PathValidator.t) (path p : string) :
  isabs (repo_path self) = true ->
  normpath (repo_path self) = repo_path self ->
  validate_path self path = (true, p) ->
  isabs p = true
  /\ normpath p = p
  /\ (within (repo_path self) p
      \/ exists allowed_folder,
           allowed_folder ∈ allowed_folders self
           /\ within (allowed_path self allowed_folder) p).
Proof.
  intros Habs Hnorm. rewrite validate_path_cases by done.
  destruct (is_path_ignored _ _); [done |].
  destruct (is_path_allowed _ _) eqn:E; simpl; [| done].
  intros [= <-].
  split; [by apply resolve_abs |].
  split; [apply resolve_normalized |].
  apply is_path_allowed_within; auto using resolve_abs, resolve_normalized.
Qed.

Lemma validate_path_sound_witness :
  isabs (repo_path (Sample.validator ["tools"] ["*.log"])) = true
  /\ normpath (repo_path (Sample.validator ["tools"] ["*.log"]))
     = repo_path (Sample.validator ["tools"] ["*.log"])
  /\ validate_path (Sample.validator ["tools"] ["*.log"]) "src/main.py"
     = (true, "/home/u/repo/src/main.py")
  /\ isabs "/home/u/repo/src/main.py" = true
  /\ normpath "/home/u/repo/src/main.py" = "/home/u/repo/src/main.py"
  /\ (within (repo_path (Sample.validator ["tools"] ["*.log"]))
        "/home/u/repo/src/main.py"
      \/ exists allowed_folder,
           allowed_folder ∈ allowed_folders (Sample.validator ["tools"] ["*.log"])
           /\ within
                (allowed_path (Sample.validator ["tools"] ["*.log"])
                   allowed_folder)
                "/home/u/repo/src/main.py").
Proof.
  split; [reflexivity |]. split; [reflexivity |]. split; [reflexivity |].
  apply (validate_path_sound (Sample.validator ["tools"] ["*.log"])
           "src/main.py" "/home/u/repo/src/main.py"); reflexivity.
Defined.

(** The check for a ".." component comes after [normpath] has resolved
    every ".." of the absolute path: its message is never returned. *)
Lemma validate_path_no_traversal_error (self : PathValidator.t)
    (path : string) :
  isabs (repo_path self) = true ->
  validate_path self path <> (false, traversal_error path).
Proof.
  intros Habs. rewrite validate_path_cases by done.
  destruct (is_path_ignored _ _); [by intros [=] |].
  destruct (negb _); by intros [=].
Qed.

(** C2: a path that climbs out of the repository is refused as lying
    outside the allowed folders, not as a traversal. *)
Theorem traversal_reported_as_access_denied :
  split "/" (normpath "../secret.txt") = [".."; "secret.txt"]
  /\ validate_path (Sample.validator [] []) "../secret.txt"
     = (false, access_denied_error "/home/u/secret.txt")
  /\ validate_path (Sample.validator [] []) "../secret.txt"
     <> (false, traversal_error "../secret.txt").
Proof. split; [done |]. split; [done |]. by intros [=]. Qed.

Lemma is_path_ignored_spec (self : PathValidator.t) (path : string) :
  is_path_ignored self path = true <->
  exists pattern,
    pattern ∈ ignore_patterns self
    /\ (Fnmatch.fnmatch (normpath path) pattern = true
        \/ exists i,
             1 <= i <= length (parts (normpath path))
             /\ Fnmatch.fnmatch
                  (partial_path (parts (normpath path)) i) pattern = true).
Proof.
  unfold is_path_ignored. rewrite existsb_exists. split.
  - intros (pattern & Hin & H). exists pattern.
    split; [by apply list_elem_of_In |].
    apply orb_true_iff in H as [H | H]; [by left | right].
    apply existsb_exists in H as (i & Hi & H). exists i. split; [| done].
    apply in_seq in Hi. lia.
  - intros (pattern & Hin & H). exists pattern.
    split; [by apply list_elem_of_In |].
    apply orb_true_iff. destruct H as [H | (i & Hi & H)]; [by left | right].
    apply existsb_exists. exists i. split; [| done].
    apply in_seq. lia.
Qed.

(** C3, as the code has it: the patterns are matched against the
    normalized absolute path and against the absolute path of each of its
    ancestors; when one matches, [validate_path] fails with the message for
    an ignored path, also when the path itself matches no pattern. *)
Theorem validate_path_ignored (self : PathValidator.t)
    (path pattern : string) :
  isabs (repo_path self) = true ->
  pattern ∈ ignore_patterns self ->
  (Fnmatch.fnmatch (resolve self path) pattern = true
   \/ exists i,
        1 <= i <= length (parts (resolve self path))
        /\ Fnmatch.fnmatch
             (partial_path (parts (resolve self path)) i) pattern = true) ->
  validate_path self path = (false, ignored_error (resolve self path)).
Proof.
  intros Habs Hin H. rewrite validate_path_cases by done.
  assert (is_path_ignored self (resolve self path) = true) as ->; [| done].
  apply is_path_ignored_spec. exists pattern. split; [done |].
  by rewrite resolve_normalized.
Qed.

Lemma validate_path_ignored_witness :
  isabs (repo_path (Sample.validator [] ["*/build"])) = true
  /\ "*/build" ∈ ignore_patterns (Sample.validator [] ["*/build"])
  /\ Fnmatch.fnmatch
       (resolve (Sample.validator [] ["*/build"]) "build/out.txt")
       "*/build" = false
  /\ partial_path
       (parts (resolve (Sample.validator [] ["*/build"]) "build/out.txt")) 5
     = "/home/u/repo/build"
  /\ validate_path (Sample.validator [] ["*/build"]) "build/out.txt"
     = (false, ignored_error "/home/u/repo/build/out.txt").
Proof.
  split; [reflexivity |]. split; [apply list_elem_of_here |].
  split; [reflexivity |]. split; [reflexivity |].
  apply (validate_path_ignored (Sample.validator [] ["*/build"])
           "build/out.txt" "*/build");
    [reflexivity | apply list_elem_of_here |].
  right. exists 5. split; [vm_compute; lia | reflexivity].
Defined.

(** A pattern that matches an ancestor of the path taken relative to the
    repository root does not make the path ignored. *)
Lemma relative_pattern_counterexample :
  relpath (cwd (Sample.validator [] ["build"]))
    (resolve (Sample.validator [] ["build"]) "build/out.txt")
    (repo_path (Sample.validator [] ["build"]))
  = Some "build/out.txt"
  /\ partial_path (parts "build/out.txt") 1 = "build"
  /\ Fnmatch.fnmatch "build" "build" = true
  /\ validate_path (Sample.validator [] ["build"]) "build/out.txt"
     = (true, "/home/u/repo/build/out.txt").
Proof. by vm_compute. Qed.

End PathValidatorFacts.

Module BasenameFacts.
Import PyStr PosixPath PyStrFacts.

Lemma contains_char_app (c : ascii) (a b : string) :
  contains_char c (a +:+ b) = contains_char c a || contains_char c b.
Proof.
  induction a as [|x a IH]; simpl; [done |].
  by rewrite IH, orb_assoc.
Qed.

Lemma rfind_nat_none (c : ascii) (s : string) :
  contains_char c s = false -> rfind_nat c s = None.
Proof.
  induction s as [|a s IH]; simpl; [done |].
  intros [Ha Hs]%orb_false_iff. by rewrite (IH Hs), Ha.
Qed.

Lemma rfind_nat_last (c : ascii) (d x : string) :
  contains_char c x = false ->
  rfind_nat c (d +:+ String c x) = Some (String.length d).
Proof.
  intros Hx. induction d as [|a d IH]; simpl.
  - by rewrite (rfind_nat_none c x Hx), Ascii.eqb_refl.
  - by rewrite IH.
Qed.

Lemma str_drop_app (d x : string) : str_drop (String.length d) (d +:+ x) = x.
Proof. induction d as [|a d IH]; simpl; [by destruct x | done]. Qed.

(** A path is cut at its last separator. *)
Lemma last_sep_split (c : ascii) (p : string) :
  contains_char c p = true ->
  exists d x, p = d +:+ String c x /\ contains_char c x = false.
Proof.
  induction p as [|a p IH]; simpl; [done |].
  destruct (contains_char c p) eqn:Hp.
  - intros _. destruct (IH eq_refl) as (d & x & -> & Hx).
    by exists (String a d), x.
  - rewrite orb_false_r. intros ->%Ascii.eqb_eq. by exists "", p.
Qed.

Lemma basename_app_sep (d x : string) :
  contains_char "/" x = false -> basename (d +:+ String "/" x) = x.
Proof.
  intros Hx. unfold basename, rfind, slice_from.
  rewrite (rfind_nat_last _ d x Hx).
  destruct (0 <=? _)%Z eqn:E; [| apply Z.leb_gt in E; lia].
  replace (Z.to_nat (Z.of_nat (String.length d) + 1))
    with (String.length (d +:+ "/")) by (rewrite str_length_app; simpl; lia).
  replace (d +:+ String "/" x) with ((d +:+ "/") +:+ x)
    by (by rewrite str_app_assoc).
  apply str_drop_app.
Qed.

Lemma basename_no_sep (x : string) :
  contains_char "/" x = false -> basename x = x.
Proof.
  intros Hx. unfold basename, rfind, slice_from.
  rewrite (rfind_nat_none _ x Hx). simpl. by destruct x.
Qed.

Lemma basename_plain (p : string) : contains_char "/" (basename p) = false.
Proof.
  destruct (contains_char "/" p) eqn:Hp.
  - destruct (last_sep_split _ _ Hp) as (d & x & -> & Hx).
    by rewrite basename_app_sep.
  - by rewrite basename_no_sep.
Qed.

Lemma endswith_char_inv (s : string) (c : ascii) :
  endswith_char s c = true -> exists d, s = d +:+ String c "".
Proof.
  induction s as [|a s IH]; simpl; [done |].
  destruct s as [|b s].
  - intros ->%Ascii.eqb_eq. by exists "".
  - intros H. destruct (IH H) as [d Hd]. exists (String a d).
    simpl. by rewrite <- Hd.
Qed.

Lemma basename_join2 (d x : string) :
  contains_char "/" x = false -> basename (join2 d x) = x.
Proof.
  intros Hx. unfold join2.
  assert (startswith x "/" = false) as ->.
  { destruct x as [|a x]; [done |]. simpl in *.
    apply orb_false_iff in Hx as [-> _]. done. }
  destruct (bool_decide (d = "")) eqn:E1; simpl.
  { apply bool_decide_eq_true in E1 as ->. by apply basename_no_sep. }
  destruct (endswith_char d "/") eqn:E2.
  - apply endswith_char_inv in E2 as [d' ->].
    rewrite str_app_assoc. simpl. by apply basename_app_sep.
  - simpl. by apply basename_app_sep.
Qed.

End BasenameFacts.

Module TextEditorToolFacts.
Import PyStr PosixPath PyStrFacts BasenameFacts TextIO TextEditorTool.

Lemma backup_basename (self : t) (path : string) :
  basename (backup_filename self path) = basename path +:+ ".bak".
Proof.
  unfold backup_filename. simpl. apply basename_join2.
  rewrite contains_char_app, basename_plain. done.
Qed.

(** The backup of a file is another file: [shutil.copy2] never copies a
    file onto itself. *)
Lemma backup_filename_ne (self : t) (path : string) :
  backup_filename self path <> path.
Proof.
  intros E. pose proof (backup_basename self path) as H.
  rewrite E in H. apply (f_equal String.length) in H.
  rewrite str_length_app in H. simpl in H. lia.
Qed.


(** The three cases of the number of occurrences are all there is. *)
Lemma count_nonneg (s sub : string) : (0 <= count s sub)%Z.
Proof. unfold count, len. destruct sub; lia. Qed.

Lemma create_backup_existing (self : t) (path bytes : string) :
  fs self !! path = Some bytes ->
  _create_backup self path
  = (backup_filename self path,
     with_fs self (<[backup_filename self path := bytes]> (fs self))).
Proof. unfold _create_backup. by intros ->. Qed.

Section Handlers.

Variable unified_diff : string -> string -> string -> string -> string.

(** The state in which [_handle_str_replace] reads the file. *)
Lemma str_replace_unfold (self : t) (path bytes : string) (p : params) :
  fs self !! path = Some bytes ->
  default "" (old_str p) <> "" ->
  let old := default "" (old_str p) in
  let new := default "" (new_str p) in
  let content := universal_newlines bytes in
  let backup := backup_filename self path in
  let self1 := with_fs self (<[backup := bytes]> (fs self)) in
  _handle_str_replace unified_diff self path p =
    if (count content old =? 0)%Z then (no_match_error, self1)
    else if (count content old >? 1)%Z
    then (ambiguous_match_error (count content old), self1)
    else if default true (confirm p)
    then (confirm_edit
            (unified_diff content (replace content old new)
               ("a/" +:+ path) ("b/" +:+ path)), self1)
    else (replaced,
          with_last_edit
            (with_fs self1
               (<[path := replace content old new]> (fs self1)))
            path
            {| backup_path := backup; op := StrReplace;
               old_content := content;
               new_content := replace content old new |}).
Proof.
  intros Hfile Hold. simpl. unfold _handle_str_replace.
  rewrite bool_decide_eq_false_2 by (by rewrite Hfile).
  rewrite bool_decide_eq_false_2 by done.
  rewrite (create_backup_existing _ _ _ Hfile).
  unfold TextIO.read. simpl.
  rewrite lookup_insert_ne by apply backup_filename_ne.
  rewrite Hfile. simpl. done.
Qed.

(** C4, for a text to replace that is not empty: with [k] occurrences in
    the content of the file, [k = 0] gives the error for a text that was
    not found, [k = 1] the preview when confirmation is asked for and the
    committed replacement when it is not, and [k > 1] the error that
    reports [k]. *)
Theorem str_replace_by_count (self : t) (path bytes : string)
    (p : params) :
  fs self !! path = Some bytes ->
  default "" (old_str p) <> "" ->
  let old := default "" (old_str p) in
  let new := default "" (new_str p) in
  let content := universal_newlines bytes in
  let k := count content old in
  let r := _handle_str_replace unified_diff self path p in
  (k = 0%Z -> r.1 = no_match_error)
  /\ (k = 1%Z -> default true (confirm p) = true ->
       r.1 = confirm_edit
               (unified_diff content (replace content old new)
                  ("a/" +:+ path) ("b/" +:+ path)))
  /\ (k = 1%Z -> confirm p = Some false ->
       r.1 = replaced
       /\ fs r.2 !! path = Some (replace content old new))
  /\ ((1 < k)%Z -> r.1 = ambiguous_match_error k).
Proof.
  intros Hfile Hold. cbv zeta.
  rewrite (str_replace_unfold self path bytes p Hfile Hold).
  split; [| split; [| split]].
  - by intros ->.
  - intros -> ->. done.
  - intros -> ->. simpl. by rewrite lookup_insert_eq.
  - intros Hk.
    destruct (Z.eqb_spec (count (universal_newlines bytes)
                            (default "" (old_str p))) 0); [lia |].
    destruct (Z.gtb_spec (count (universal_newlines bytes)
                            (default "" (old_str p))) 1); [done | lia].
Qed.


(** C10: an empty text to replace is refused with the message that
    [old_str] is required, before anything is written. *)
Theorem str_replace_empty_old_str (self : t) (path bytes : string)
    (p : params) :
  fs self !! path = Some bytes ->
  default "" (old_str p) = "" ->
  let r := _handle_str_replace unified_diff self path p in
  r = (old_str_required_error, self) /\ fs r.2 !! path = Some bytes.
Proof.
  intros Hfile Hold. cbv zeta. unfold _handle_str_replace.
  rewrite bool_decide_eq_false_2 by (by rewrite Hfile).
  rewrite Hold. simpl. done.
Qed.

(** A create that reports success has found the path free and no
    confirmation asked for, has made the directories without an error,
    and has then written the file and its record. *)
Lemma create_committed (self : t) (path : string) (p : params) :
  (_handle_create self path p).1 = created path ->
  exists made : t,
    path_exists self path = false
    /\ default true (confirm p) = false
    /\ makedirs self (dirname (abspath (getcwd self) path)) = (None, made)
    /\ (_handle_create self path p).2
       = with_last_edit
           (with_fs made
              (TextIO.write (fs made) path (default "" (file_text p))))
           path
           {| backup_path := "";
              op := Create;
              old_content := "";
              new_content := default "" (file_text p) |}.
Proof.
  unfold _handle_create.
  destruct (path_exists self path); [by intros [=] |].
  destruct (default true (confirm p)); [by intros [=] |].
  destruct (makedirs _ _) as [[e|] made]; [by intros [=] |].
  intros _. by exists made.
Qed.


End Handlers.

Lemma str_replace_by_count_witness :
  fs Sample.editor !! "/home/u/repo/b.txt" = Some "foo"
  /\ count (universal_newlines "foo") "foo" = 1%Z
  /\ (_handle_str_replace Sample.diff Sample.editor "/home/u/repo/b.txt"
        (Sample.edit (Some "foo") (Some "bar") (Some false))).1 = replaced
  /\ fs (_handle_str_replace Sample.diff Sample.editor "/home/u/repo/b.txt"
           (Sample.edit (Some "foo") (Some "bar") (Some false))).2
     !! "/home/u/repo/b.txt" = Some "bar".
Proof.
  split; [reflexivity |]. split; [reflexivity |].
  apply (str_replace_by_count Sample.diff Sample.editor "/home/u/repo/b.txt"
           "foo" (Sample.edit (Some "foo") (Some "bar") (Some false)));
    [reflexivity | discriminate | reflexivity | reflexivity].
Defined.

(** The empty text occurs four times in "foo", and the call is refused
    with another error than the one that reports the count. *)
Lemma str_replace_empty_counterexample :
  fs Sample.editor !! "/home/u/repo/b.txt" = Some "foo"
  /\ count (universal_newlines "foo") "" = 4%Z
  /\ (_handle_str_replace Sample.diff Sample.editor "/home/u/repo/b.txt"
        (Sample.edit (Some "") (Some "bar") (Some false))).1
     = old_str_required_error
  /\ old_str_required_error <> ambiguous_match_error 4.
Proof. by vm_compute. Qed.



Lemma str_replace_empty_old_str_witness :
  fs Sample.editor !! "/home/u/repo/b.txt" = Some "foo"
  /\ _handle_str_replace Sample.diff Sample.editor "/home/u/repo/b.txt"
       (Sample.edit (Some "") (Some "bar") (Some false))
     = (old_str_required_error, Sample.editor)
  /\ fs (_handle_str_replace Sample.diff Sample.editor "/home/u/repo/b.txt"
           (Sample.edit (Some "") (Some "bar") (Some false))).2
     !! "/home/u/repo/b.txt" = Some "foo".
Proof.
  split; [reflexivity |].
  apply (str_replace_empty_old_str Sample.diff Sample.editor
           "/home/u/repo/b.txt" "foo"
           (Sample.edit (Some "") (Some "bar") (Some false)));
    reflexivity.
Defined.


(** Reading translates the line ends and the replacement writes the
    translated text, yet undo brings back the bytes the file had. *)
Lemma undo_restores_line_ends :
  let bytes := "a" +:+ String CR nl +:+ "b" in
  let self := {| backup_dir := "/home/u/repo/.backups";
                 last_edits := ∅;
                 fs := {[ "/home/u/repo/dos.txt" := bytes ]};
                 directories :=
                   {[ "/"; "/home"; "/home/u"; "/home/u/repo";
                      "/home/u/repo/.backups" ]};
                 getcwd := "/home/u/repo" |} in
  let r := _handle_str_replace Sample.diff self "/home/u/repo/dos.txt"
             (Sample.edit (Some "a") (Some "c") (Some false)) in
  fs r.2 !! "/home/u/repo/dos.txt" = Some ("c" +:+ nl +:+ "b")
  /\ fs (_handle_undo_edit r.2 "/home/u/repo/dos.txt").2
     !! "/home/u/repo/dos.txt" = Some bytes.
Proof. by vm_compute. Qed.





End TextEditorToolFacts.

Module OutputLimiterFacts.
Import PyStr PyStrFacts OutputLimiter.

Lemma length_str_take (n : nat) (s : string) :
  String.length (str_take n s) = Nat.min n (String.length s).
Proof.
  revert s. induction n as [|n IH]; intros [|a s]; simpl; [done.. |].
  by rewrite IH.
Qed.

Lemma len_slice_to (s : string) (k : Z) :
  (0 <= k <= len s)%Z -> len (slice_to s k) = k.
Proof.
  intros Hk. unfold slice_to, len in *.
  destruct (Z.leb_spec 0 k); [| lia]. rewrite length_str_take. lia.
Qed.

(** A text within the budget is returned as it is. *)
Lemma truncate_text_short (text : string) (max_chars : Z) (add_note : bool) :
  (len text <= max_chars)%Z -> truncate_text text max_chars add_note = text.
Proof.
  intros H. unfold truncate_text. by destruct (Z.leb_spec (len text) max_chars); [| lia].
Qed.

(** A budget that has room for the note is met exactly. *)
Lemma truncate_text_fits (text : string) (max_chars : Z) :
  (len (note text max_chars) <= max_chars < len text)%Z ->
  len (truncate_text text max_chars true) = max_chars.
Proof.
  intros [Hn Ht]. unfold truncate_text.
  destruct (Z.leb_spec (len text) max_chars); [lia |].
  assert (0 <= len (note text max_chars))%Z by (unfold len; lia).
  unfold len at 1. rewrite str_length_app, Nat2Z.inj_add.
  fold (len (slice_to (slice_to text max_chars)
               (max_chars - len (note text max_chars)))).
  fold (len (note text max_chars)).
  rewrite len_slice_to; [lia |].
  rewrite len_slice_to; lia.
Qed.

Lemma len_app (a b : string) : len (a +:+ b) = (len a + len b)%Z.
Proof. unfold len. rewrite str_length_app. lia. Qed.

Lemma len_nonneg (s : string) : (0 <= len s)%Z.
Proof. unfold len. lia. Qed.

(** The fixed text of the note alone has 65 characters. *)
Lemma note_length (text : string) (max_chars : Z) :
  (65 <= len (note text max_chars))%Z.
Proof.
  unfold note. rewrite !len_app.
  pose proof (len_nonneg (of_int max_chars)).
  pose proof (len_nonneg (of_int (len text))).
  change (len nl) with 1%Z.
  change (len "[Output truncated to ") with 21%Z.
  change (len " characters. Original length: ") with 30%Z.
  change (len " characters]") with 12%Z. lia.
Qed.

(** A budget below the length of the note is always exceeded. *)
Lemma truncate_text_overflow (text : string) (max_chars : Z) :
  (max_chars < len text)%Z ->
  (max_chars < len (note text max_chars))%Z ->
  (max_chars < len (truncate_text text max_chars true))%Z.
Proof.
  intros Ht Hn. unfold truncate_text.
  destruct (Z.leb_spec (len text) max_chars); [lia |].
  rewrite len_app.
  pose proof (len_nonneg (slice_to (slice_to text max_chars)
                            (max_chars - len (note text max_chars)))).
  lia.
Qed.

(** C8: with a budget smaller than the note, the result is longer than
    the budget. *)
Theorem truncate_text_exceeds_budget :
  let text := "aaaaaaaaaaa" in
  len text = 11%Z
  /\ truncate_text text 10 true = note text 10
  /\ len (truncate_text text 10 true) = 69%Z.
Proof. vm_compute. done. Qed.

End OutputLimiterFacts.

Module SearchToolFacts.
Import PyStr OutputLimiter SearchTool.

Lemma length_list_slice_to {A} (l : list A) (k : Z) :
  length (list_slice_to l k) <= length l.
Proof.
  unfold list_slice_to. destruct (0 <=? k)%Z; rewrite length_take; lia.
Qed.

Lemma length_list_slice_to_cap {A} (l : list A) (k : Z) :
  (0 <= k)%Z -> (Z.of_nat (length (list_slice_to l k)) <= k)%Z.
Proof.
  intros Hk. unfold list_slice_to.
  destruct (Z.leb_spec 0 k); [| lia]. rewrite length_take. lia.
Qed.

Lemma total_nonneg {A} (d : Dict.t (list A)) : (0 <= total d)%Z.
Proof. induction d as [|kv d IH]; simpl; lia. Qed.

Lemma total_set_le {A} (d : Dict.t (list A)) (k : string) (v : list A) :
  (total (Dict.set d k v) <= total d + Z.of_nat (length v))%Z.
Proof.
  induction d as [|[k' v'] d IH]; simpl; [lia |].
  destruct (bool_decide (k' = k)); simpl; lia.
Qed.

Lemma Forall_set {A} (P : string * list A -> Prop) (d : Dict.t (list A))
    (k : string) (v : list A) :
  Forall P d -> P (k, v) -> Forall P (Dict.set d k v).
Proof.
  intros Hd Hv. induction Hd as [|[k' v'] d Hkv Hd IH]; simpl.
  - by constructor.
  - destruct (bool_decide (k' = k)); by constructor.
Qed.

Lemma limit_content_loop_bounds {A} (items : list (string * list A))
    (max_total cap : Z) (limited : Dict.t (list A)) (running : Z) :
  (0 <= cap)%Z -> capped cap limited ->
  capped cap (limit_content_loop items max_total cap limited running)
  /\ (total (limit_content_loop items max_total cap limited running)
      <= total limited + total items)%Z.
Proof.
  intros Hcap. revert limited running.
  induction items as [|[file_path matches] items IH];
    intros limited running Hlim; simpl.
  - split; [done | lia].
  - pose proof (length_list_slice_to matches cap) as Hlen.
    pose proof (length_list_slice_to_cap matches cap Hcap) as Hle.
    pose proof (total_set_le limited file_path (list_slice_to matches cap))
      as Hset.
    pose proof (total_nonneg items).
    assert (capped cap (Dict.set limited file_path (list_slice_to matches cap)))
      as Hlim' by (by apply Forall_set).
    destruct (_ >=? _)%Z.
    + split; [done | lia].
    + destruct (IH _ (running + Z.of_nat (length (list_slice_to matches cap)))%Z
                  Hlim') as [IH1 IH2].
      split; [done | lia].
Qed.

Lemma search_loop_bounds (fs : filesystem) (query : string)
    (case_sensitive : bool) (max_results cap : Z) (all_files : list string)
    (results : Dict.t (list ContentMatch)) (running : Z) :
  (0 <= cap)%Z -> capped cap results ->
  (total results <= running <= Z.max (max_results - 1) 0)%Z ->
  let r := search_loop fs query case_sensitive max_results cap all_files
             results running in
  capped cap r /\ (total r <= Z.max (max_results - 1) 0 + cap)%Z.
Proof.
  intros Hcap. revert results running.
  induction all_files as [|file_path all_files IH];
    intros results running Hres Hrun; simpl.
  - split; [done | lia].
  - destruct (skipped fs file_path); [by apply IH |].
    destruct (bool_decide (_ = [])); [by apply IH |].
    set (file_matches :=
           list_slice_to (_search_file_content fs query file_path case_sensitive)
             cap).
    pose proof (length_list_slice_to_cap
                  (_search_file_content fs query file_path case_sensitive)
                  cap Hcap) as Hle.
    fold file_matches in Hle.
    pose proof (total_set_le results file_path file_matches) as Hset.
    assert (capped cap (Dict.set results file_path file_matches)) as Hres'
      by (by apply Forall_set).
    destruct (Z.geb_spec (running + Z.of_nat (length file_matches)) max_results).
    + split; [done | lia].
    + apply IH; [done | lia].
Qed.

(** X22: what the content search does guarantee: the cap per file, and a
    total below the budget plus one file's cap. *)
Lemma search_content_bounds (fs : filesystem) (query : string)
    (all_files : list string) (case_sensitive : bool)
    (max_results max_per_file : Z) :
  (0 <= max_per_file)%Z ->
  let r := _search_content_in_files fs query all_files case_sensitive
             max_results max_per_file in
  capped max_per_file r
  /\ (total r <= Z.max (max_results - 1) 0 + max_per_file)%Z.
Proof.
  intros Hcap. cbv zeta. unfold _search_content_in_files, limit_content_matches.
  destruct (search_loop_bounds fs query case_sensitive max_results max_per_file
              all_files [] 0 Hcap) as [H1 H2]; [constructor | simpl; lia |].
  destruct (limit_content_loop_bounds
              (search_loop fs query case_sensitive max_results max_per_file
                 all_files [] 0)
              max_results max_per_file [] 0 Hcap) as [H3 H4]; [constructor |].
  split; [done |]. simpl in H4. lia.
Qed.

(** C9: the matches of the last file recorded are not cut down to the
    budget that is left, so the total exceeds it. *)
Theorem search_exceeds_budget :
  let fs : filesystem :=
    {[ "/repo/a.txt" := "foo" +:+ nl +:+ "foo" +:+ nl ]} in
  let results :=
    _search_content_in_files fs "foo" ["/repo/a.txt"] false 1 10 in
  map (fun kv => (kv.1, length kv.2)) results = [("/repo/a.txt", 2)]
  /\ total results = 2%Z.
Proof. vm_compute. done. Qed.

End SearchToolFacts.

(** * Further properties *)

Module PathGuardMore.
Import PyStr PosixPath PyStrFacts PosixPathFacts PathFacts BasenameFacts
  PathValidator PathValidatorFacts.

Lemma str_app_nil_r (a : string) : a +:+ "" = a.
Proof. induction a as [|c a IH]; simpl; [done | by rewrite IH]. Qed.

Lemma endswith_char_app (s x : string) (c : ascii) :
  x <> "" -> endswith_char (s +:+ x) c = endswith_char x c.
Proof.
  intros Hx. induction s as [|a s IH]; [done |].
  change (String a s +:+ x) with (String a (s +:+ x)).
  simpl. rewrite IH.
  destruct (s +:+ x) eqn:E; [| done].
  destruct s; [by simpl in E | done].
Qed.

Lemma endswith_char_plain (x : string) (c : ascii) :
  contains_char c x = false -> endswith_char x c = false.
Proof.
  induction x as [|a x IH]; [done |]. simpl.
  intros [Ha Hx]%orb_false_iff. destruct x; [done | by apply IH].
Qed.

Lemma join_snoc (l : list string) (x : string) :
  l <> [] -> PyStr.join "/" (l ++ [x]) = PyStr.join "/" l +:+ "/" +:+ x.
Proof.
  unfold PyStr.join. induction l as [|a l IH]; [done |]. intros _.
  destruct l as [|b l]; [done |].
  change (String.concat "/" ((a :: b :: l) ++ [x]))
    with (a +:+ "/" +:+ String.concat "/" ((b :: l) ++ [x])).
  rewrite IH by done.
  change (String.concat "/" (a :: b :: l))
    with (a +:+ "/" +:+ String.concat "/" (b :: l)).
  by rewrite !str_app_assoc.
Qed.

Lemma join_endswith (l : list string) :
  Forall plain l -> endswith_char (PyStr.join "/" l) "/" = false.
Proof.
  induction l as [|x l IH] using rev_ind; [done |].
  intros [Hl Hx]%Forall_app. inversion_clear Hx as [|? ? (Hne & _ & Hsep) _].
  destruct l as [|a l].
  - simpl. by apply endswith_char_plain.
  - rewrite join_snoc by done. rewrite <- str_app_assoc.
    rewrite endswith_char_app by done. by apply endswith_char_plain.
Qed.

Lemma build_abs_eq (k : nat) (comps : list string) :
  k <> 0 -> build k comps = repeat_char "/" k +:+ PyStr.join "/" comps.
Proof. intros Hk. unfold build. by destruct k. Qed.

Lemma repeat_char_endswith (k : nat) :
  k <> 0 -> endswith_char (repeat_char "/" k) "/" = true.
Proof.
  intros Hk. induction k as [|[|k] IH]; [done | done |].
  change (endswith_char (repeat_char "/" (S (S k))) "/")
    with (endswith_char (repeat_char "/" (S k)) "/"). by apply IH.
Qed.

(** Joining one more component to a normalized absolute path. *)
Lemma join2_build (k : nat) (comps : list string) (x : string) :
  k <> 0 -> Forall plain comps -> plain x ->
  join2 (build k comps) x = build k (comps ++ [x]).
Proof.
  intros Hk Hcomps (Hne & _ & Hsep).
  rewrite !build_abs_eq by done. unfold join2.
  rewrite (startswith_sep_contains x Hsep).
  rewrite bool_decide_eq_false_2 by (by destruct k).
  destruct comps as [|a comps].
  - simpl PyStr.join. rewrite str_app_nil_r.
    by rewrite repeat_char_endswith.
  - rewrite endswith_char_app.
    2:{ unfold PyStr.join. inversion_clear Hcomps as [|? ? (Ha & _) _].
        destruct a; [done |]. by destruct comps. }
    rewrite join_endswith by done. simpl orb. cbv iota.
    rewrite join_snoc by done. by rewrite !str_app_assoc.
Qed.

Lemma lstrip_repeat (k : nat) (j : string) :
  startswith j "/" = false -> lstrip "/" (repeat_char "/" k +:+ j) = j.
Proof.
  intros Hj. induction k as [|k IH]; simpl; [| done].
  destruct j as [|a j]; [done |]. simpl in *.
  rewrite andb_true_r in Hj. by rewrite Hj.
Qed.

Lemma filter_plain (comps : list string) :
  Forall plain comps ->
  filter (fun x => x <> "" /\ x <> ".") comps = comps.
Proof.
  induction 1 as [|x l (Hne & Hdot & _) _ IH]; [done |].
  rewrite filter_cons_True by done. by rewrite IH.
Qed.

(** The parts of a normalized absolute path: its root and its
    components. *)
Lemma parts_build (k : nat) (comps : list string) :
  k = 1 \/ k = 2 -> comps_ok k comps ->
  parts (build k comps) = repeat_char "/" k :: comps.
Proof.
  intros Hk Hok. pose proof (join_not_abs _ _ Hok) as Hj.
  destruct Hok as [HF _].
  assert (k <> 0) as Hk0 by lia.
  unfold parts, path_root. rewrite build_abs_eq by done.
  rewrite lstrip_repeat by done.
  assert (startswith (repeat_char "/" k +:+ PyStr.join "/" comps) "/" = true)
    as -> by (by destruct k).
  simpl negb. cbv iota.
  rewrite str_length_app.
  assert (String.length (repeat_char "/" k) = k) as ->.
  { clear. induction k; simpl; [done | by f_equal]. }
  replace (k + String.length (PyStr.join "/" comps)
           - String.length (PyStr.join "/" comps)) with k by lia.
  assert ((if bool_decide (k = 2) then "//" else "/") = repeat_char "/" k)
    as ->.
  { by destruct Hk as [-> | ->]. }
  rewrite bool_decide_eq_false_2 by (by destruct Hk as [-> | ->]).
  simpl app. f_equal.
  destruct comps as [|x comps]; [done |].
  rewrite split_join; [by apply filter_plain | done |].
  eapply Forall_impl; [exact HF |]. by intros ? (_ & _ & ?).
Qed.

(** Joining the parts gives the path back. *)
Lemma join_parts_build (k : nat) (pre comps : list string) :
  k <> 0 -> Forall plain pre -> Forall plain comps ->
  PosixPath.join (build k pre) comps = build k (pre ++ comps).
Proof.
  intros Hk. revert pre. unfold PosixPath.join.
  induction comps as [|x comps IH]; intros pre Hpre Hcomps; simpl.
  - by rewrite app_nil_r.
  - inversion_clear Hcomps as [|? ? Hx Hcomps'].
    rewrite join2_build by done. rewrite IH.
    + by rewrite <- (assoc_L (++)).
    + apply Forall_app. split; [done | by apply Forall_singleton].
    + done.
Qed.

(** A normalized absolute path, taken apart. *)
Lemma normalized_abs_build (p : string) :
  isabs p = true -> normpath p = p ->
  exists k comps, (k = 1 \/ k = 2) /\ comps_ok k comps /\ p = build k comps.
Proof.
  intros Habs Hnorm. assert (p <> "") as Hp by (by intros ->).
  destruct (normpath_build p Hp) as (comps & Hok & E).
  exists (initial_slashes p), comps. split; [| split; [done | congruence]].
  pose proof (initial_slashes_le p).
  apply initial_slashes_isabs in Habs. lia.
Qed.

Lemma partial_path_full (k : nat) (comps : list string) :
  k <> 0 -> Forall plain comps ->
  partial_path (repeat_char "/" k :: comps) (S (length comps))
  = build k comps.
Proof.
  intros Hk HF. unfold partial_path. simpl take. rewrite firstn_all.
  replace (repeat_char "/" k) with (build k []).
  - by rewrite join_parts_build.
  - rewrite build_abs_eq by done. simpl. apply str_app_nil_r.
Qed.

Lemma partial_path_snoc (l : list string) (x : string) (i : nat) :
  i <= length l -> partial_path (l ++ [x]) i = partial_path l i.
Proof. intros Hi. unfold partial_path. by rewrite take_app_le. Qed.

Lemma partial_path_cons_snoc (a : string) (l : list string) (x : string)
    (i : nat) :
  i <= S (length l) ->
  partial_path (a :: l ++ [x]) i = partial_path (a :: l) i.
Proof. intros Hi. by apply (partial_path_snoc (a :: l) x i). Qed.

(** What is directly below an ignored directory is ignored. *)
Lemma is_path_ignored_child (self : PathValidator.t) (dir name : string) :
  isabs dir = true -> normpath dir = dir ->
  plain name -> name <> ".." ->
  is_path_ignored self dir = true ->
  isabs (join2 dir name) = true
  /\ normpath (join2 dir name) = join2 dir name
  /\ is_path_ignored self (join2 dir name) = true.
Proof.
  intros Habs Hnorm Hname Hdd Hign.
  destruct (normalized_abs_build dir Habs Hnorm) as (k & comps & Hk & Hok & ->).
  assert (k <> 0) as Hk0 by lia.
  destruct Hok as [HF Hd].
  assert (comps_ok k (comps ++ [name])) as Hok'.
  { split; [apply Forall_app; split; [done | by apply Forall_singleton] |].
    by apply dotdot_snoc_other. }
  rewrite join2_build by done.
  assert (normpath (build k (comps ++ [name])) = build k (comps ++ [name]))
    as Hnorm' by (apply normpath_of_build; [lia | done]).
  split; [by apply build_abs |]. split; [done |].
  apply is_path_ignored_spec in Hign as (pattern & Hin & Hcase).
  apply is_path_ignored_spec. exists pattern. split; [done |]. right.
  rewrite Hnorm'. rewrite parts_build by done.
  rewrite Hnorm in Hcase. rewrite parts_build in Hcase by first [done | by split].
  destruct Hcase as [Hfull | (i & Hi & Hmatch)].
  - exists (S (length comps)). simpl length. rewrite length_app. simpl.
    split; [lia |].
    rewrite partial_path_cons_snoc by lia.
    by rewrite partial_path_full.
  - exists i. simpl in Hi. simpl length. rewrite length_app. simpl.
    split; [lia |].
    by rewrite partial_path_cons_snoc by lia.
Qed.

(** X3: everything below an ignored directory is ignored as well. *)
Theorem ignored_directory_hides_descendants (self : PathValidator.t)
    (dir : string) (names : list string) :
  isabs dir = true -> normpath dir = dir ->
  Forall (fun name => plain name /\ name <> "..") names ->
  is_path_ignored self dir = true ->
  is_path_ignored self (PosixPath.join dir names) = true.
Proof.
  intros Habs Hnorm Hnames. revert dir Habs Hnorm. unfold PosixPath.join.
  induction Hnames as [|name names [Hplain Hdd] _ IH];
    intros dir Habs Hnorm Hign; [done |].
  simpl.
  destruct (is_path_ignored_child self dir name Habs Hnorm Hplain Hdd Hign)
    as (Habs' & Hnorm' & Hign').
  by apply IH.
Qed.

Lemma ignored_directory_hides_descendants_witness :
  is_path_ignored (Sample.validator [] ["*/build"]) "/home/u/repo/build" = true
  /\ Fnmatch.fnmatch "/home/u/repo/build/out/a.o" "*/build" = false
  /\ is_path_ignored (Sample.validator [] ["*/build"])
       (PosixPath.join "/home/u/repo/build" ["out"; "a.o"]) = true.
Proof.
  split; [reflexivity |]. split; [reflexivity |].
  apply (ignored_directory_hides_descendants
           (Sample.validator [] ["*/build"]) "/home/u/repo/build"
           ["out"; "a.o"]); [reflexivity | reflexivity | | reflexivity].
  repeat constructor; discriminate.
Defined.

(** X1: the outcome of [validate_path] is decided by the ignore check and
    then by the allow check on the resolved path; the message for a
    traversal is never returned. *)
Theorem validate_path_outcomes (self : PathValidator.t) (path : string) :
  isabs (repo_path self) = true ->
  validate_path self path
  = (if is_path_ignored self (resolve self path)
     then (false, ignored_error (resolve self path))
     else if is_path_allowed self (resolve self path)
     then (true, resolve self path)
     else (false, access_denied_error (resolve self path)))
  /\ validate_path self path <> (false, traversal_error path).
Proof.
  intros Habs. rewrite validate_path_cases by done.
  destruct (is_path_ignored _ _); [split; [done | by intros [=]] |].
  destruct (is_path_allowed _ _); simpl; split; (done || by intros [=]).
Qed.

Lemma validate_path_outcomes_witness :
  isabs (repo_path (Sample.validator [] ["*.log"])) = true
  /\ validate_path (Sample.validator [] ["*.log"]) "../x.log"
     = (false, ignored_error "/home/u/x.log")
  /\ validate_path (Sample.validator [] ["*.log"]) "../x.log"
     <> (false, traversal_error "../x.log").
Proof.
  split; [reflexivity |].
  apply (validate_path_outcomes (Sample.validator [] ["*.log"]) "../x.log").
  reflexivity.
Defined.

(** X2: a leading slash does not make a path absolute: the path is taken
    relative to the repository, as without the slash. *)
Theorem validate_path_leading_slash (self : PathValidator.t) (p : string) :
  isabs (repo_path self) = true ->
  p <> "" -> startswith p "/" = false ->
  validate_path self ("/" +:+ p) = validate_path self p.
Proof.
  intros Habs Hp Hrel. rewrite !validate_path_cases by done.
  assert (resolve self ("/" +:+ p) = resolve self p) as ->; [| done].
  unfold resolve. rewrite Hrel. simpl startswith. cbv iota.
  assert ((1 <? len ("/" +:+ p))%Z = true) as ->.
  { apply Z.ltb_lt. unfold len. destruct p; [done |]. simpl. lia. }
  done.
Qed.

Lemma validate_path_leading_slash_witness :
  isabs (repo_path (Sample.validator [] [])) = true
  /\ validate_path (Sample.validator [] []) "/etc/passwd"
     = (true, "/home/u/repo/etc/passwd")
  /\ validate_path (Sample.validator [] []) "/etc/passwd"
     = validate_path (Sample.validator [] []) "etc/passwd".
Proof.
  split; [reflexivity |]. split; [reflexivity |].
  apply (validate_path_leading_slash (Sample.validator [] []) "etc/passwd");
    [reflexivity | discriminate | reflexivity].
Defined.

End PathGuardMore.

Module FileWalkFacts.
Import PyStr PosixPath PyStrFacts PosixPathFacts PathFacts
  PathValidator PathValidatorFacts PathGuardMore FileWalk.

Lemma join2_normalized (dir name : string) :
  isabs dir = true -> normpath dir = dir -> entry_name name ->
  isabs (join2 dir name) = true /\ normpath (join2 dir name) = join2 dir name.
Proof.
  intros Habs Hnorm [Hplain Hdd].
  destruct (normalized_abs_build dir Habs Hnorm) as (k & comps & Hk & Hok & ->).
  assert (k <> 0) as Hk0 by lia. destruct Hok as [HF Hd].
  rewrite join2_build by done.
  split; [by apply build_abs |].
  apply normpath_of_build; [lia |].
  split; [apply Forall_app; split; [done | by apply Forall_singleton] |].
  by apply dotdot_snoc_other.
Qed.

(** Nothing below an ignored directory is kept. *)
Lemma ignored_keeps_nothing (pv : PathValidator.t) (d : tree) :
  forall root,
    isabs root = true -> normpath root = root -> well_named d ->
    is_path_ignored pv root = true ->
    filter (kept pv) (all_files root d) = [].
Proof.
  induction d as [dirs files IH] using tree_induction.
  intros root Habs Hnorm [Hfiles Hdirs] Hign. simpl.
  rewrite filter_app. apply app_nil. split.
  - clear IH Hdirs. induction Hfiles as [|f files [Hplain Hdd] _ IHf]; [done |].
    simpl. rewrite filter_cons_False; [done |].
    intros [Hkept _].
    destruct (is_path_ignored_child pv root f Habs Hnorm Hplain Hdd Hign)
      as (_ & _ & Hchild).
    congruence.
  - induction dirs as [|[name sub] dirs IHd]; [done |].
    destruct Hdirs as ([Hplain Hdd] & Hsub & Hdirs).
    inversion_clear IH as [|? ? IHsub IHrest]. simpl in IHsub.
    rewrite filter_app. apply app_nil. split; [| by apply IHd].
    destruct (is_path_ignored_child pv root name Habs Hnorm Hplain Hdd Hign)
      as (Habs' & Hnorm' & Hign').
    by apply IHsub.
Qed.

(** X4: from a normalized absolute directory, [get_all_files] returns
    the files below it that are neither ignored nor outside the allowed
    folders, all of them: leaving out the ignored sub-directories loses
    no file. *)
Theorem walk_is_filter (pv : PathValidator.t) (d : tree) (root : string) :
  isabs root = true -> normpath root = root -> well_named d ->
  get_all_files pv root d = filter (kept pv) (all_files root d).
Proof.
  intros Habs. unfold get_all_files. rewrite Habs. simpl negb. cbv iota.
  revert root Habs.
  induction d as [dirs files IH] using tree_induction.
  intros root Habs Hnorm [Hfiles Hdirs]. simpl.
  rewrite filter_app. f_equal.
  induction dirs as [|[name sub] dirs IHd]; [done |].
  destruct Hdirs as (Hname & Hsub & Hdirs).
  inversion_clear IH as [|? ? IHsub IHrest]. simpl in IHsub.
  rewrite filter_app. f_equal; [| by apply IHd].
  destruct (join2_normalized root name Habs Hnorm Hname) as [Habs' Hnorm'].
  destruct (is_path_ignored pv (join2 root name)) eqn:Hign.
  - symmetry. by apply ignored_keeps_nothing.
  - by apply IHsub.
Qed.

Lemma walk_is_filter_witness :
  get_all_files (Sample.validator [] ["*.log"; "*/build"]) "/home/u/repo"
    (Dir [("build", Dir [] ["out.o"]);
          ("src", Dir [] ["main.py"; "trace.log"])]
       ["README.md"])
  = ["/home/u/repo/README.md"; "/home/u/repo/src/main.py"]
  /\ get_all_files (Sample.validator [] ["*.log"; "*/build"]) "/home/u/repo"
       (Dir [("build", Dir [] ["out.o"]);
             ("src", Dir [] ["main.py"; "trace.log"])]
          ["README.md"])
     = filter (kept (Sample.validator [] ["*.log"; "*/build"]))
         (all_files "/home/u/repo"
            (Dir [("build", Dir [] ["out.o"]);
                  ("src", Dir [] ["main.py"; "trace.log"])]
               ["README.md"])).
Proof.
  split; [reflexivity |].
  apply (walk_is_filter (Sample.validator [] ["*.log"; "*/build"])
           (Dir [("build", Dir [] ["out.o"]);
                 ("src", Dir [] ["main.py"; "trace.log"])]
              ["README.md"])
           "/home/u/repo"); [reflexivity | reflexivity |].
  simpl. unfold entry_name, plain.
  repeat split; repeat constructor; discriminate.
Defined.

End FileWalkFacts.

Module IgnoreFileFacts.
Import PyStr TextIO SearchTool IgnoreFile.

Lemma rstrip_space_idem (s : string) :
  rstrip_space (rstrip_space s) = rstrip_space s.
Proof.
  induction s as [|a s IH]; [done |]. simpl.
  destruct (rstrip_space s) as [|b r] eqn:E.
  - destruct (is_space a) eqn:Ha; [done |]. simpl. by rewrite Ha.
  - simpl in *. by rewrite IH.
Qed.

Lemma lstrip_space_idem (s : string) :
  lstrip_space (lstrip_space s) = lstrip_space s.
Proof.
  induction s as [|a s IH]; [done |]. simpl.
  destruct (is_space a) eqn:Ha; [done |]. simpl. by rewrite Ha.
Qed.

Lemma rstrip_lstrip_space (s : string) :
  rstrip_space s = s -> rstrip_space (lstrip_space s) = lstrip_space s.
Proof.
  induction s as [|a s IH]; [done |]. intros H. simpl.
  destruct (is_space a) eqn:Ha; [| done].
  apply IH. simpl in H.
  destruct (rstrip_space s) as [|b r] eqn:E.
  - by rewrite Ha in H.
  - by injection H.
Qed.

Lemma strip_idem (s : string) : strip (strip s) = strip s.
Proof.
  unfold strip.
  rewrite rstrip_lstrip_space by apply rstrip_space_idem.
  apply lstrip_space_idem.
Qed.

Lemma universal_newlines_line (line rest : string) (dos : bool) :
  one_line line ->
  universal_newlines
    (line +:+ (if dos then String CR nl else nl) +:+ rest)
  = line +:+ nl +:+ universal_newlines rest.
Proof.
  intros [_ Hcr]. induction line as [|a line IH]; simpl.
  - by destruct dos.
  - simpl in Hcr. apply orb_false_iff in Hcr as [Ha Hcr].
    rewrite Ha. by rewrite IH.
Qed.

Lemma universal_newlines_one_line (s : string) :
  one_line s -> universal_newlines s = s.
Proof.
  intros [_ Hcr]. induction s as [|a s IH]; simpl; [done |].
  simpl in Hcr. apply orb_false_iff in Hcr as [Ha Hcr].
  rewrite Ha. by rewrite IH.
Qed.

Lemma lines_keepends_line (line rest : string) :
  one_line line ->
  lines_keepends (line +:+ String LF rest)
  = (line +:+ nl) :: lines_keepends rest.
Proof.
  intros [Hlf _]. induction line as [|a line IH]; simpl; [done |].
  simpl in Hlf. apply orb_false_iff in Hlf as [Ha Hlf].
  rewrite Ha. by rewrite IH.
Qed.

Lemma lines_keepends_one_line (s : string) :
  one_line s -> lines_keepends s = if bool_decide (s = "") then [] else [s].
Proof.
  intros [Hlf _]. induction s as [|a s IH]; simpl; [done |].
  simpl in Hlf. apply orb_false_iff in Hlf as [Ha Hlf].
  rewrite Ha, IH by done. by destruct s.
Qed.

Lemma rstrip_space_line_end (line : string) :
  rstrip_space (line +:+ nl) = rstrip_space line.
Proof. induction line as [|a line IH]; simpl; [done | by rewrite IH]. Qed.

(** The lines that are read, for a file given by its lines. *)
Lemma readlines_text_of (fs : filesystem) (path : string)
    (lines : list (string * bool)) (last : string) :
  Forall (fun line => one_line line.1) lines -> one_line last ->
  fs !! path = Some (text_of lines last) ->
  readlines fs path
  = Some (map (fun line => line.1 +:+ nl) lines
          ++ if bool_decide (last = "") then [] else [last]).
Proof.
  intros Hlines Hlast Hfile. unfold readlines, read. rewrite Hfile. simpl.
  f_equal. clear Hfile.
  induction Hlines as [|[line dos] lines Hline _ IH]; simpl.
  - rewrite universal_newlines_one_line by done.
    by apply lines_keepends_one_line.
  - rewrite universal_newlines_line by done.
    change (line +:+ nl +:+ ?r) with (line +:+ String LF r).
    rewrite lines_keepends_line by done. by rewrite IH.
Qed.

(** X5: the patterns of a file are its lines in their order, white space
    and line ends taken off, without the lines that are then empty or
    start with the comment sign; a last line without a line end counts,
    and a line may end in CR LF. *)
Theorem load_ignore_patterns_of_text (fs : filesystem) (path : string)
    (lines : list (string * bool)) (last : string) :
  Forall (fun line => one_line line.1) lines -> one_line last ->
  fs !! path = Some (text_of lines last) ->
  _load_ignore_patterns fs path
  = filter (fun pattern => pattern <> "" /\ startswith pattern "#" = false)
      (map strip (map fst lines ++ [last])).
Proof.
  intros Hlines Hlast Hfile. unfold _load_ignore_patterns.
  rewrite (readlines_text_of fs path lines last Hlines Hlast Hfile).
  rewrite !map_app, !filter_app. f_equal.
  - rewrite !map_map. f_equal. apply map_ext. intros [line dos]. simpl.
    unfold strip. by rewrite rstrip_space_line_end.
  - destruct (bool_decide (last = "")) eqn:E; [| done].
    apply bool_decide_eq_true in E as ->. simpl.
    rewrite filter_cons_False; [done |]. by intros [? ?].
Qed.

Lemma load_ignore_patterns_of_text_witness :
  let fs : filesystem :=
    {[ "/home/u/repo/.toolignore" :=
         "# build output" +:+ nl +:+ nl +:+ "  *.log  " +:+ String CR nl
         +:+ "node_modules" +:+ nl +:+ "#x" +:+ nl +:+ ".git" ]} in
  _load_ignore_patterns fs "/home/u/repo/.toolignore"
  = ["*.log"; "node_modules"; ".git"].
Proof.
  intros fs.
  apply (load_ignore_patterns_of_text fs "/home/u/repo/.toolignore"
           [("# build output", false); ("", false); ("  *.log  ", true);
            ("node_modules", false); ("#x", false)]
           ".git").
  - repeat constructor.
  - by split.
  - reflexivity.
Defined.

End IgnoreFileFacts.

Module OutputLimiterMore.
Import PyStr PyStrFacts OutputLimiter OutputLimiterFacts SearchTool
  SearchToolFacts.

Lemma str_take_take (a b : nat) (s : string) :
  str_take a (str_take b s) = str_take (Nat.min a b) s.
Proof.
  revert b s. induction a as [|a IH]; intros [|b] [|c s]; simpl; try done.
  by rewrite IH.
Qed.

Lemma str_take_all (n : nat) (s : string) :
  String.length s <= n -> str_take n s = s.
Proof.
  revert s. induction n as [|n IH]; intros [|c s] H; simpl in *;
    [done | lia | done |].
  rewrite IH; [done | lia].
Qed.

(** X6: when the note fits into the budget, the result is the text cut
    down to make room for the note, followed by the note, and it has
    exactly [max_chars] characters. *)
Theorem truncate_text_with_note (text : string) (max_chars : Z) :
  (len (note text max_chars) <= max_chars < len text)%Z ->
  truncate_text text max_chars true
  = str_take (Z.to_nat (max_chars - len (note text max_chars))) text
    +:+ note text max_chars
  /\ len (truncate_text text max_chars true) = max_chars.
Proof.
  intros H. split; [| by apply truncate_text_fits].
  destruct H as [Hn Ht]. unfold truncate_text.
  destruct (Z.leb_spec (len text) max_chars); [lia |].
  pose proof (len_nonneg (note text max_chars)).
  unfold slice_to.
  destruct (Z.leb_spec 0 max_chars); [| lia].
  destruct (Z.leb_spec 0 (max_chars - len (note text max_chars))); [| lia].
  rewrite str_take_take. do 2 f_equal. lia.
Qed.

Lemma truncate_text_with_note_witness :
  (len (note (String.concat "" (replicate 100 "abcdefghij")) 80) <= 80
   < len (String.concat "" (replicate 100 "abcdefghij")))%Z
  /\ len (truncate_text (String.concat "" (replicate 100 "abcdefghij")) 80 true)
     = 80%Z.
Proof.
  split; [vm_compute; split; [discriminate | reflexivity] |].
  apply (truncate_text_with_note
           (String.concat "" (replicate 100 "abcdefghij")) 80).
  vm_compute. split; [discriminate | reflexivity].
Defined.

(** X7: without the note, the result is the text itself or its first
    [max_chars] characters, never longer than the budget. *)
Theorem truncate_text_without_note (text : string) (max_chars : Z) :
  (0 <= max_chars)%Z ->
  truncate_text text max_chars false = str_take (Z.to_nat max_chars) text
  /\ (len (truncate_text text max_chars false) <= max_chars)%Z.
Proof.
  intros Hm.
  assert (truncate_text text max_chars false
          = str_take (Z.to_nat max_chars) text) as E.
  { unfold truncate_text, slice_to.
    destruct (Z.leb_spec (len text) max_chars) as [Hle | Hgt].
    - rewrite str_take_all; [done |]. unfold len in Hle. lia.
    - by destruct (Z.leb_spec 0 max_chars); [| lia]. }
  split; [done |]. rewrite E. unfold len. rewrite length_str_take. lia.
Qed.

Lemma truncate_text_without_note_witness :
  (0 <= 4)%Z
  /\ truncate_text "abcdefgh" 4 false = "abcd".
Proof.
  split; [lia |].
  apply (truncate_text_without_note "abcdefgh" 4). lia.
Defined.

(** X8: [limit_content_matches] keeps at most [max_matches_per_file]
    matches of a file, and in total fewer than the budget plus what one
    file may hold. *)
Theorem limit_content_matches_bounds {A} (results : Dict.t (list A))
    (max_total_matches max_matches_per_file : Z) :
  (0 <= max_matches_per_file)%Z ->
  let r := limit_content_matches results max_total_matches
             max_matches_per_file in
  capped max_matches_per_file r
  /\ (total r <= Z.max (max_total_matches - 1) 0 + max_matches_per_file)%Z
  /\ (total r <= total results)%Z.
Proof.
  intros Hcap. cbv zeta. unfold limit_content_matches.
  destruct (limit_content_loop_bounds results max_total_matches
              max_matches_per_file [] 0 Hcap) as [H1 H2]; [constructor |].
  split; [done |]. split; [| simpl in H2; lia].
  assert (forall (items : list (string * list A)) (limited : Dict.t (list A))
                 running,
            (total limited <= running <= Z.max (max_total_matches - 1) 0)%Z ->
            (total (limit_content_loop items max_total_matches
                      max_matches_per_file limited running)
             <= Z.max (max_total_matches - 1) 0 + max_matches_per_file)%Z)
    as Hloop.
  { clear - Hcap. induction items as [|[file_path matches] items IH];
      intros limited running Hrun; simpl; [lia |].
    pose proof (length_list_slice_to_cap matches max_matches_per_file Hcap).
    pose proof (total_set_le limited file_path
                  (list_slice_to matches max_matches_per_file)).
    destruct (Z.geb_spec
                (running + Z.of_nat (length (list_slice_to matches
                                               max_matches_per_file)))
                max_total_matches); [lia |].
    apply IH. lia. }
  apply Hloop. simpl. lia.
Qed.

Lemma limit_content_matches_bounds_witness :
  (0 <= 2)%Z
  /\ limit_content_matches [("a", [1; 2; 3]); ("b", [4; 5]); ("c", [6])] 4 2
     = [("a", [1; 2]); ("b", [4; 5])]
  /\ (total (limit_content_matches
               [("a", [1; 2; 3]); ("b", [4; 5]); ("c", [6])] 4 2)
      <= Z.max (4 - 1) 0 + 2)%Z.
Proof.
  split; [lia |]. split; [reflexivity |].
  apply (limit_content_matches_bounds
           [("a", [1; 2; 3]); ("b", [4; 5]); ("c", [6])] 4 2). lia.
Defined.

End OutputLimiterMore.

Module FormatFacts.
Import PyStr PyStrFacts OutputLimiter OutputLimiterFacts PathGuardMore.

Lemma format_file_loop_shape (n max_chars : Z) (results : list FileMatch)
    (i : Z) (content : string) :
  exists k,
    k <= length results
    /\ format_file_loop n max_chars results i content
       = content +:+ listing (take k results) i
         +:+ (if bool_decide (k < length results)
              then omitted_note (n - (i + Z.of_nat k) + 1) else "")
    /\ (k < length results ->
        (max_chars < len (content +:+ listing (take (S k) results) i))%Z)
    /\ (0 < k ->
        (len (content +:+ listing (take k results) i) <= max_chars)%Z).
Proof.
  revert i content. induction results as [|r results IH]; intros i content.
  - exists 0. simpl. rewrite !str_app_nil_r. repeat split; lia.
  - simpl format_file_loop.
    destruct (Z.gtb_spec (len content + len (file_line i r)) max_chars)
      as [Hover | Hfits].
    + exists 0. simpl. rewrite Z.add_0_r.
      split; [lia |]. split; [done |]. split; [| lia].
      intros _. rewrite str_app_nil_r, len_app. lia.
    + destruct (IH (i + 1)%Z (content +:+ file_line i r))
        as (k & Hk & -> & Hnext & Hshown).
      exists (S k). split; [simpl; lia |]. split.
      * simpl take. simpl listing. rewrite !str_app_assoc.
        do 3 f_equal. simpl length.
        replace (i + 1 + Z.of_nat k)%Z with (i + Z.of_nat (S k))%Z by lia.
        destruct (decide (k < length results)).
        -- by rewrite !bool_decide_eq_true_2 by lia.
        -- by rewrite !bool_decide_eq_false_2 by lia.
      * split.
        -- intros Hlt. simpl in Hlt. simpl take. simpl listing.
           rewrite <- str_app_assoc. apply Hnext. lia.
        -- intros _. simpl take. simpl listing. rewrite <- str_app_assoc.
           destruct k as [|k].
           ++ simpl. rewrite str_app_nil_r, len_app. lia.
           ++ apply Hshown. lia.
Qed.

(** X9: the formatted result of a file search is the header, the lines of
    the first [k] matches and, when some are left out, a note with their
    exact number; the lines shown stay within the budget, and the next
    line would not. *)
Theorem format_file_search_results_shape (results : list FileMatch)
    (query : string) (max_chars : Z) :
  results <> [] ->
  exists k,
    k <= length results
    /\ format_file_search_results results query max_chars
       = files_header (length results) query +:+ listing (take k results) 1
         +:+ (if bool_decide (k < length results)
              then omitted_note (Z.of_nat (length results - k)) else "")
    /\ (k < length results ->
        (max_chars < len (files_header (length results) query
                          +:+ listing (take (S k) results) 1))%Z)
    /\ (0 < k ->
        (len (files_header (length results) query
              +:+ listing (take k results) 1) <= max_chars)%Z).
Proof.
  intros Hne.
  destruct (format_file_loop_shape (Z.of_nat (length results)) max_chars
              results 1 (files_header (length results) query))
    as (k & Hk & E & Hnext & Hshown).
  exists k. split; [done |]. split; [| by split].
  unfold format_file_search_results. destruct results as [|r results]; [done |].
  rewrite E. do 2 f_equal.
  destruct (bool_decide _); [| done]. f_equal. lia.
Qed.

Lemma format_file_search_results_shape_witness :
  [mkFileMatch "/r/agent.py" 100 "agent.py";
   mkFileMatch "/r/agent_test.py" 100 "agent_test.py";
   mkFileMatch "/r/x.py" 60 "x.py"] <> []
  /\ format_file_search_results
       [mkFileMatch "/r/agent.py" 100 "agent.py";
        mkFileMatch "/r/agent_test.py" 100 "agent_test.py";
        mkFileMatch "/r/x.py" 60 "x.py"] "agen" 70
     = files_header 3 "agen" +:+ file_line 1 (mkFileMatch "/r/agent.py" 100 "agent.py")
       +:+ omitted_note 2
  /\ exists k,
       k <= 3
       /\ format_file_search_results
            [mkFileMatch "/r/agent.py" 100 "agent.py";
             mkFileMatch "/r/agent_test.py" 100 "agent_test.py";
             mkFileMatch "/r/x.py" 60 "x.py"] "agen" 70
          = files_header 3 "agen"
            +:+ listing
                  (take k [mkFileMatch "/r/agent.py" 100 "agent.py";
                           mkFileMatch "/r/agent_test.py" 100 "agent_test.py";
                           mkFileMatch "/r/x.py" 60 "x.py"]) 1
            +:+ (if bool_decide (k < 3)
                 then omitted_note (Z.of_nat (3 - k)) else "").
Proof.
  split; [discriminate |]. split; [reflexivity |].
  destruct (format_file_search_results_shape
              [mkFileMatch "/r/agent.py" 100 "agent.py";
               mkFileMatch "/r/agent_test.py" 100 "agent_test.py";
               mkFileMatch "/r/x.py" 60 "x.py"] "agen" 70)
    as (k & Hk & E & _); [discriminate |].
  exists k. split; [exact Hk | exact E].
Defined.

End FormatFacts.

Module EditorMore.
Import PyStr PosixPath PyStrFacts BasenameFacts TextIO TextEditorTool
  TextEditorToolFacts.

Section Handlers.

Variable unified_diff : string -> string -> string -> string -> string.




(** X14: [_handle_undo_edit] never changes the edit records or another
    file than the target, and without a record for the path it changes
    nothing. *)
Theorem undo_effects (self : t) (path : string) :
  let r := _handle_undo_edit self path in
  last_edits r.2 = last_edits self
  /\ (forall q, q <> path -> fs r.2 !! q = fs self !! q)
  /\ (last_edits self !! path = None -> r = (no_history_error path, self)).
Proof.
  cbv zeta. unfold _handle_undo_edit.
  destruct (last_edits self !! path) as [e|]; [| done].
  split; [| split; [| done]].
  - destruct (op e); simpl;
      [by destruct (negb _) | |];
      by destruct (if bool_decide _ then _ else _).
  - intros q Hq. unfold TextIO.write.
    destruct (op e); simpl;
      [destruct (negb _); simpl; by rewrite ?lookup_delete_ne by done | |];
      destruct (if bool_decide _ then _ else _); simpl;
      by rewrite lookup_insert_ne by done.
Qed.

(** The lines of a text, put together again, are the text. *)
Lemma concat_lines_keepends (s : string) :
  String.concat "" (lines_keepends s) = s.
Proof.
  assert (forall l ls, String.concat "" (l :: ls) = l +:+ String.concat "" ls)
    as Hcons.
  { intros l [|l' ls]; simpl; [by rewrite PathGuardMore.str_app_nil_r | done]. }
  induction s as [|c s IH]; [done |]. simpl lines_keepends.
  destruct (Ascii.eqb c LF).
  - rewrite Hcons, IH. done.
  - destruct (lines_keepends s) as [|l ls] eqn:E.
    + simpl in *. by rewrite <- IH.
    + rewrite Hcons. rewrite Hcons in IH. simpl. by rewrite IH.
Qed.

Lemma concat_take_drop (ls : list string) (k : nat) :
  String.concat "" (take k ls) +:+ String.concat "" (drop k ls)
  = String.concat "" ls.
Proof.
  assert (forall l ls, String.concat "" (l :: ls) = l +:+ String.concat "" ls)
    as Hcons.
  { intros l [|l' ls']; simpl; [by rewrite PathGuardMore.str_app_nil_r | done]. }
  revert k. induction ls as [|l ls IH]; intros [|k]; try done.
  change (take (S k) (l :: ls)) with (l :: take k ls).
  change (drop (S k) (l :: ls)) with (drop k ls).
  rewrite !Hcons, str_app_assoc. by rewrite IH.
Qed.

(** The state in which [_handle_insert] reads the file. *)
Lemma insert_unfold (self : t) (path bytes : string) (p : params)
    (insert_line : option Z) :
  fs self !! path = Some bytes ->
  let k := default 0%Z insert_line in
  let lines := lines_keepends (universal_newlines bytes) in
  let backup := backup_filename self path in
  let self1 := with_fs self (<[backup := bytes]> (fs self)) in
  _handle_insert unified_diff self path p insert_line =
    if (k <? 0)%Z || (k >? Z.of_nat (length lines))%Z
    then (invalid_line_error k (length lines), self1)
    else if default true (confirm p)
    then (confirm_edit
            (unified_diff (String.concat "" lines)
               (inserted_content lines k (default "" (new_str p)))
               ("a/" +:+ path) ("b/" +:+ path)), self1)
    else (inserted k,
          with_last_edit
            (with_fs self1
               (<[path := inserted_content lines k (default "" (new_str p))]>
                  (fs self1)))
            path
            {| backup_path := backup; op := Insert;
               old_content := String.concat "" lines;
               new_content :=
                 inserted_content lines k (default "" (new_str p)) |}).
Proof.
  intros Hfile. simpl. unfold _handle_insert.
  rewrite bool_decide_eq_false_2 by (by rewrite Hfile).
  rewrite (create_backup_existing _ _ _ Hfile).
  unfold TextIO.readlines, TextIO.read. simpl.
  rewrite lookup_insert_ne by apply backup_filename_ne.
  rewrite Hfile. simpl. done.
Qed.

(** X15: a line number below 0 or above the number of lines is refused
    with the number of lines in the message; the file and the edit
    records stay as they were. *)
Theorem insert_out_of_range (self : t) (path bytes : string) (p : params)
    (k : Z) :
  fs self !! path = Some bytes ->
  let n := length (lines_keepends (universal_newlines bytes)) in
  (k < 0 \/ Z.of_nat n < k)%Z ->
  let r := _handle_insert unified_diff self path p (Some k) in
  r.1 = invalid_line_error k n
  /\ fs r.2 !! path = Some bytes
  /\ last_edits r.2 = last_edits self.
Proof.
  intros Hfile. cbv zeta. intros Hk.
  rewrite (insert_unfold self path bytes p (Some k) Hfile). simpl default.
  assert ((k <? 0)%Z
          || (k >? Z.of_nat (length (lines_keepends (universal_newlines bytes))))%Z
          = true) as ->.
  { apply orb_true_iff. destruct Hk; [left; lia | right; lia]. }
  simpl. split; [done |]. split; [| done].
  by rewrite lookup_insert_ne by apply backup_filename_ne.
Qed.

(** X16: a committed insert after line [k] writes the content that was
    read, cut after its first [k] lines, with the new text and a line end
    in between; nothing of the old content is lost. *)
Theorem insert_commit (self : t) (path bytes : string) (p : params) (k : Z) :
  fs self !! path = Some bytes ->
  confirm p = Some false ->
  let lines := lines_keepends (universal_newlines bytes) in
  (0 <= k <= Z.of_nat (length lines))%Z ->
  let r := _handle_insert unified_diff self path p (Some k) in
  let before := String.concat "" (take (Z.to_nat k) lines) in
  let after := String.concat "" (drop (Z.to_nat k) lines) in
  r.1 = inserted k
  /\ before +:+ after = universal_newlines bytes
  /\ fs r.2 !! path
     = Some (before +:+ default "" (new_str p) +:+ nl +:+ after).
Proof.
  intros Hfile Hc. cbv zeta. intros Hk.
  rewrite (insert_unfold self path bytes p (Some k) Hfile). simpl default.
  rewrite Hc. simpl default.
  set (lines := lines_keepends (universal_newlines bytes)) in *.
  assert ((k <? 0)%Z || (k >? Z.of_nat (length lines))%Z = false) as ->.
  { apply orb_false_iff. split; lia. }
  simpl. split; [done |].
  split; [by rewrite concat_take_drop; apply concat_lines_keepends |].
  rewrite lookup_insert_eq. f_equal. unfold inserted_content.
  destruct (Z.eqb_spec k 0) as [-> | Hk0].
  - simpl. by rewrite drop_0.
  - unfold list_slice_to, list_slice_from.
    destruct (Z.leb_spec 0 k); [| lia]. by rewrite ?str_app_assoc.
Qed.


End Handlers.




Lemma undo_effects_witness :
  last_edits Sample.editor !! "/home/u/repo/b.txt" = None
  /\ _handle_undo_edit Sample.editor "/home/u/repo/b.txt"
     = (no_history_error "/home/u/repo/b.txt", Sample.editor).
Proof.
  split; [reflexivity |].
  apply (undo_effects Sample.editor "/home/u/repo/b.txt"). reflexivity.
Defined.

Lemma insert_out_of_range_witness :
  fs Sample.editor2 !! "/home/u/repo/notes.txt" = Some ("a" +:+ nl +:+ "b" +:+ nl)
  /\ (_handle_insert Sample.diff Sample.editor2 "/home/u/repo/notes.txt"
        (Sample.edit None (Some "X") (Some false)) (Some 3%Z)).1
     = invalid_line_error 3 2.
Proof.
  split; [reflexivity |].
  apply (insert_out_of_range Sample.diff Sample.editor2
           "/home/u/repo/notes.txt" ("a" +:+ nl +:+ "b" +:+ nl)
           (Sample.edit None (Some "X") (Some false)) 3);
    [reflexivity | right; vm_compute; reflexivity].
Defined.

Lemma insert_commit_witness :
  fs Sample.editor2 !! "/home/u/repo/notes.txt" = Some ("a" +:+ nl +:+ "b" +:+ nl)
  /\ fs (_handle_insert Sample.diff Sample.editor2 "/home/u/repo/notes.txt"
           (Sample.edit None (Some "X") (Some false)) (Some 1%Z)).2
     !! "/home/u/repo/notes.txt"
     = Some ("a" +:+ nl +:+ "X" +:+ nl +:+ "b" +:+ nl).
Proof.
  split; [reflexivity |].
  apply (insert_commit Sample.diff Sample.editor2 "/home/u/repo/notes.txt"
           ("a" +:+ nl +:+ "b" +:+ nl)
           (Sample.edit None (Some "X") (Some false)) 1);
    [reflexivity | reflexivity | vm_compute; split; discriminate].
Defined.


End EditorMore.

Module RegistryFacts.
Import ToolRegistry.

Section Registry.

Context {F Info : Type}.

Lemma dict_get_set {V} (d : Dict.t V) (k : string) (v : V) :
  Dict.get (Dict.set d k v) k = Some v.
Proof.
  induction d as [|[k' v'] d IH]; simpl.
  - by rewrite bool_decide_eq_true_2.
  - destruct (bool_decide (k' = k)) eqn:E; simpl.
    + by rewrite bool_decide_eq_true_2.
    + by rewrite E.
Qed.

Lemma dict_get_set_ne {V} (d : Dict.t V) (k k0 : string) (v : V) :
  k0 <> k -> Dict.get (Dict.set d k v) k0 = Dict.get d k0.
Proof.
  intros Hne. induction d as [|[k' v'] d IH]; simpl.
  - by rewrite bool_decide_eq_false_2.
  - destruct (bool_decide (k' = k)) eqn:E; simpl.
    + apply bool_decide_eq_true in E as ->.
      by rewrite !bool_decide_eq_false_2.
    + by rewrite IH.
Qed.

Lemma dict_keys_set {V} (d : Dict.t V) (k : string) (v : V) :
  map fst (Dict.set d k v)
  = if bool_decide (k ∈ map fst d) then map fst d else map fst d ++ [k].
Proof.
  induction d as [|[k' v'] d IH]; simpl; [done |].
  destruct (bool_decide (k' = k)) eqn:E; simpl.
  - apply bool_decide_eq_true in E as ->.
    rewrite bool_decide_eq_true_2; [done | by left].
  - apply bool_decide_eq_false in E. rewrite IH.
    destruct (decide (k ∈ map fst d)) as [Hin | Hnin].
    + rewrite !bool_decide_eq_true_2; [done | by right | done].
    + rewrite !bool_decide_eq_false_2; [done | | done].
      by intros [? | ?]%elem_of_cons.
Qed.

Lemma dict_set_fresh {V} (d : Dict.t V) (k : string) (v : V) :
  k ∉ map fst d -> Dict.set d k v = d ++ [(k, v)].
Proof.
  induction d as [|[k' v'] d IH]; simpl; [done |].
  intros Hnin. apply not_elem_of_cons in Hnin as [Hne Hnin].
  rewrite bool_decide_eq_false_2 by done. by rewrite IH.
Qed.

Lemma get_tool_specs_snoc (l : ToolRegistry.t F Info) (x : string * tool F Info) :
  get_tool_specs (l ++ [x])
  = (map (fun kv => spec kv.2) (l ++ [(x.1, mark x.2)]),
     l ++ [(x.1, mark x.2)]).
Proof.
  unfold get_tool_specs.
  assert (length (l ++ [x]) - 1 = length l + 0) as Hlen
    by (rewrite length_app; simpl; lia).
  destruct (l ++ [x]) as [|y l0] eqn:E; [by destruct l |].
  rewrite Hlen, <- E. unfold ToolRegistry.t, Dict.t in *.
  by rewrite alter_app_r.
Qed.

(** X18: the last registration of a name wins, the other tools are as
    they were, and a name keeps its place in the list of tools. *)
Theorem register_get_tool (self : ToolRegistry.t F Info) (tool_name : string)
    (f : F) (description : string) (parameters : option (Dict.t Info))
    (required_params : option (list string)) :
  let self' :=
    register self tool_name f description parameters required_params in
  get_tool self' tool_name = Some f
  /\ (forall other, other <> tool_name ->
      get_tool self' other = get_tool self other)
  /\ list_tools self'
     = if bool_decide (tool_name ∈ list_tools self)
       then list_tools self
       else list_tools self ++ [tool_name].
Proof.
  cbv zeta. unfold get_tool, register, list_tools.
  split; [by rewrite dict_get_set |].
  split; [intros other Hne; by rewrite dict_get_set_ne | apply dict_keys_set].
Qed.

(** X19: [get_tool_specs] marks the last tool in the registry itself and
    no mark is ever taken away: when a tool is registered between two
    calls, the second call returns two marked specifications. *)
Theorem cache_marks_accumulate (self : ToolRegistry.t F Info)
    (tool_name : string) (f : F) (description : string)
    (parameters : option (Dict.t Info))
    (required_params : option (list string)) :
  self <> [] -> tool_name ∉ list_tools self ->
  let s1 := (get_tool_specs self).2 in
  let s2 :=
    register s1 tool_name f description parameters required_params in
  let specs := (get_tool_specs s2).1 in
  list_tools s1 = list_tools self
  /\ length specs = S (length self)
  /\ exists older newer rest,
       specs = rest ++ [older; newer]
       /\ cache_control older = true
       /\ cache_control newer = true
       /\ name newer = tool_name.
Proof.
  intros Hne Hfresh. cbv zeta.
  destruct self as [|x l] using rev_ind; [done |]. clear IHl Hne.
  rewrite get_tool_specs_snoc. simpl snd.
  assert (list_tools (l ++ [(x.1, mark x.2)])
          = list_tools (l ++ [x])) as Hkeys.
  { unfold list_tools. by rewrite !map_app. }
  split; [done |].
  assert (tool_name ∉ map fst (l ++ [(x.1, mark x.2)])) as Hfresh'.
  { unfold list_tools in *. by rewrite Hkeys. }
  unfold register. rewrite (dict_set_fresh _ _ _ Hfresh').
  set (tl := {| func := f; spec := _ |}).
  set (s2 := (l ++ [(x.1, mark x.2)]) ++ [(tool_name, tl)]).
  assert ((get_tool_specs s2).1
          = map (fun kv => spec kv.2) l
            ++ [spec (mark x.2); spec (mark tl)])
    as ->.
  { subst s2. rewrite get_tool_specs_snoc. simpl. rewrite !map_app. simpl.
    by rewrite <- (assoc_L (++)). }
  split.
  - rewrite !length_app, length_map. simpl. lia.
  - by eexists _, _, _.
Qed.

End Registry.

Lemma cache_marks_accumulate_witness :
  (get_tool_specs
     (register
        (get_tool_specs
           (register ([] : ToolRegistry.t nat nat) "editor" 1 "edits"
              None None)).2
        "search" 2 "searches" None None)).1
  = [mkSpec "editor" "edits" [] [] true;
     mkSpec "search" "searches" [] [] true]
  /\ exists older newer rest,
       (get_tool_specs
          (register
             (get_tool_specs
                (register ([] : ToolRegistry.t nat nat) "editor" 1 "edits"
                   None None)).2
             "search" 2 "searches" None None)).1
       = rest ++ [older; newer]
       /\ cache_control older = true
       /\ cache_control newer = true
       /\ name newer = "search".
Proof.
  split; [reflexivity |].
  apply (cache_marks_accumulate
           (register ([] : ToolRegistry.t nat nat) "editor" 1 "edits"
              None None)
           "search" 2 "searches" None None).
  - discriminate.
  - simpl. by intros ?%list_elem_of_singleton.
Defined.

End RegistryFacts.

Module SearchMore.
Import PyStr PosixPath TextIO OutputLimiter SearchTool SearchToolFacts.

Lemma filter_seq_eq (i start n : nat) :
  start <= i < start + n ->
  filter (fun j => j = i) (seq start n) = [i].
Proof.
  intros Hi.
  assert (forall a m, (forall j, a <= j < a + m -> j <> i) ->
            filter (fun j => j = i) (seq a m) = []) as Hnone.
  { intros a m. revert a. induction m as [|m IH]; intros a H; [done |].
    simpl. rewrite filter_cons_False by (apply H; lia).
    apply IH. intros j Hj. apply H. lia. }
  replace n with ((i - start) + (1 + (start + n - i - 1))) by lia.
  rewrite seq_app, filter_app.
  rewrite Hnone by (intros; lia).
  replace (start + (i - start)) with i by lia.
  simpl seq. rewrite filter_cons_True by done.
  simpl. f_equal. apply Hnone. intros; lia.
Qed.

Lemma filter_map_flag {A B} (f : A -> B) (P : B -> Prop)
    `{!forall y, Decision (P y)} (Q : A -> Prop) `{!forall x, Decision (Q x)}
    (l : list A) :
  (forall x, P (f x) <-> Q x) -> filter P (map f l) = map f (filter Q l).
Proof.
  intros HPQ. induction l as [|x l IH]; [done |]. simpl.
  destruct (decide (Q x)) as [HQ | HQ].
  - rewrite !filter_cons_True by (done || by apply HPQ). simpl. by rewrite IH.
  - rewrite !filter_cons_False by (done || by rewrite HPQ). done.
Qed.

(** The context of a line of the file: at most five lines, the line
    itself among them and the only one that is flagged. *)
Lemma context_of_line (lines : list string) (i : nat) (line : string) :
  lines !! i = Some line ->
  length (context_of lines i) <= 5
  /\ filter (fun c => is_match c = true) (context_of lines i)
     = [{| ctx_line_number := Z.of_nat i + 1;
           ctx_content := rstrip_space line;
           is_match := true |}].
Proof.
  intros Hline. pose proof (lookup_lt_Some _ _ _ Hline) as Hlt.
  unfold context_of. rewrite length_map, length_seq.
  split; [lia |].
  rewrite (filter_map_flag _ _ (fun j => j = i)).
  - rewrite filter_seq_eq by lia. simpl. rewrite Hline. simpl.
    by rewrite bool_decide_eq_true_2.
  - intros j. simpl. apply bool_decide_eq_true.
Qed.

(** X20: the matches of a file are its lines that contain the query, each
    once, with its number, its text without trailing white space, and a
    context of at most five lines in which the line itself is the one
    flagged. *)
Theorem search_file_content_matches (fs : filesystem)
    (query file_path bytes : string) (case_sensitive : bool) :
  fs !! file_path = Some bytes ->
  let lines := lines_keepends (universal_newlines bytes) in
  let matches := _search_file_content fs query file_path case_sensitive in
  (forall m, m ∈ matches ->
     exists i line,
       lines !! i = Some line
       /\ line_matches query case_sensitive line = true
       /\ line_number m = (Z.of_nat i + 1)%Z
       /\ content m = rstrip_space line
       /\ length (context m) <= 5
       /\ filter (fun c => is_match c = true) (context m)
          = [{| ctx_line_number := line_number m;
                ctx_content := content m;
                is_match := true |}])
  /\ (forall i line,
        lines !! i = Some line ->
        line_matches query case_sensitive line = true ->
        exists m, m ∈ matches /\ line_number m = (Z.of_nat i + 1)%Z).
Proof.
  intros Hfile. cbv zeta. unfold _search_file_content, readlines, read.
  rewrite Hfile. simpl.
  set (lines := lines_keepends (universal_newlines bytes)).
  split.
  - intros m Hm. apply list_elem_of_omap in Hm as ([i line] & Hin & Hsome).
    apply elem_of_lookup_imap in Hin as (i' & line' & [= <- <-] & Hline).
    destruct (line_matches query case_sensitive line) eqn:Hmatch; [| done].
    injection Hsome as <-. exists i, line. simpl.
    destruct (context_of_line lines i line Hline) as [Hlen Hflag].
    repeat split; done.
  - intros i line Hline Hmatch. eexists. split.
    + apply list_elem_of_omap. exists (i, line). split.
      * apply elem_of_lookup_imap. by exists i, line.
      * simpl. by rewrite Hmatch.
    + done.
Qed.

Lemma search_file_content_matches_witness :
  ({[ "/r/a.txt" := "foo" +:+ nl +:+ "bar" +:+ nl +:+ "a Foo " +:+ nl ]}
     : filesystem) !! "/r/a.txt"
  = Some ("foo" +:+ nl +:+ "bar" +:+ nl +:+ "a Foo " +:+ nl)
  /\ map line_number
       (_search_file_content
          {[ "/r/a.txt" := "foo" +:+ nl +:+ "bar" +:+ nl +:+ "a Foo " +:+ nl ]}
          "foo" "/r/a.txt" false)
     = [1%Z; 3%Z]
  /\ exists m,
       m ∈ _search_file_content
             {[ "/r/a.txt" := "foo" +:+ nl +:+ "bar" +:+ nl +:+ "a Foo " +:+ nl ]}
             "foo" "/r/a.txt" false
       /\ line_number m = (Z.of_nat 2 + 1)%Z.
Proof.
  split; [reflexivity |]. split; [reflexivity |].
  apply (search_file_content_matches
           {[ "/r/a.txt" := "foo" +:+ nl +:+ "bar" +:+ nl +:+ "a Foo " +:+ nl ]}
           "foo" "/r/a.txt"
           ("foo" +:+ nl +:+ "bar" +:+ nl +:+ "a Foo " +:+ nl) false)
    with (line := "a Foo " +:+ nl); reflexivity.
Defined.

Lemma insert_by_score_elem (x y : FileMatch) (l : list FileMatch) :
  y ∈ insert_by_score x l <-> y = x \/ y ∈ l.
Proof.
  induction l as [|z l IH]; simpl.
  - rewrite list_elem_of_singleton. split; [by left | intros [? | ?]; [done |]].
    by apply elem_of_nil in H.
  - destruct (score z <=? score x)%Z.
    + by rewrite elem_of_cons.
    + rewrite !elem_of_cons, IH. tauto.
Qed.

Lemma insert_by_score_sorted (x : FileMatch) (l : list FileMatch) :
  StronglySorted by_score l -> StronglySorted by_score (insert_by_score x l).
Proof.
  induction 1 as [|z l Hl IH Hz]; simpl.
  - by repeat constructor.
  - destruct (Z.leb_spec (score z) (score x)) as [Hle | Hgt].
    + constructor; [by constructor |].
      constructor; [done |].
      eapply Forall_impl; [exact Hz |]. unfold by_score. simpl. lia.
    + constructor; [done |].
      apply Forall_forall. intros y [-> | Hy]%insert_by_score_elem.
      * unfold by_score. lia.
      * by apply (proj1 (Forall_forall _ _) Hz).
Qed.

Lemma sort_by_score_sorted (l : list FileMatch) :
  StronglySorted by_score (sort_by_score l).
Proof.
  induction l as [|x l IH]; simpl; [constructor |].
  by apply insert_by_score_sorted.
Qed.

Lemma sort_by_score_elem (y : FileMatch) (l : list FileMatch) :
  y ∈ sort_by_score l <-> y ∈ l.
Proof.
  induction l as [|x l IH]; simpl; [done |].
  rewrite insert_by_score_elem, elem_of_cons, IH. done.
Qed.

Lemma sort_by_score_length (l : list FileMatch) :
  length (sort_by_score l) = length l.
Proof.
  assert (forall x l', length (insert_by_score x l') = S (length l')) as H.
  { intros x l'. induction l' as [|z l' IH]; simpl; [done |].
    destruct (_ <=? _)%Z; simpl; by rewrite ?IH. }
  induction l as [|x l IH]; simpl; [done |]. by rewrite H, IH.
Qed.

Lemma limit_file_matches_take {A} (l : list A) (k : Z) :
  (0 <= k)%Z -> limit_file_matches l k = take (Z.to_nat k) l.
Proof.
  intros Hk. unfold limit_file_matches, list_slice_to.
  destruct (Z.leb_spec (Z.of_nat (length l)) k).
  - rewrite take_ge; [done | lia].
  - by destruct (Z.leb_spec 0 k); [| lia].
Qed.

Section Fuzzy.

Variable partial_ratio : string -> string -> Z.

(** X21: the fuzzy search returns at most [max_results] matches, each a
    file of the list whose name scores above 50 against the query, case
    ignored, the higher scores first. *)
Theorem fuzzy_search_results (query : string) (all_files : list string)
    (max_results : Z) :
  (0 <= max_results)%Z ->
  let results :=
    _fuzzy_search_files partial_ratio query all_files max_results in
  (Z.of_nat (length results) <= max_results)%Z
  /\ StronglySorted by_score results
  /\ Forall
       (fun m =>
          path m ∈ all_files
          /\ filename m = basename (path m)
          /\ score m = partial_ratio (lower query) (lower (filename m))
          /\ (50 < score m)%Z)
       results.
Proof.
  intros Hmax. cbv zeta. unfold _fuzzy_search_files.
  rewrite limit_file_matches_take by done.
  set (matches := omap _ all_files).
  split; [rewrite length_take; lia |]. split.
  - pose proof (sort_by_score_sorted matches) as Hs.
    rewrite <- (take_drop (Z.to_nat max_results) (sort_by_score matches)) in Hs.
    by apply StronglySorted_app_1_l in Hs.
  - apply Forall_forall. intros m Hm.
    apply elem_of_take in Hm as (i & Hm & _).
    apply list_elem_of_lookup_2 in Hm.
    apply (proj1 (sort_by_score_elem _ _)) in Hm. subst matches.
    apply list_elem_of_omap in Hm as (file_path & Hin & Hsome).
    destruct (Z.gtb_spec (partial_ratio (lower query)
                            (lower (basename file_path))) 50); [| done].
    injection Hsome as <-. simpl. repeat split; [done | lia].
Qed.

End Fuzzy.

Lemma fuzzy_search_results_witness :
  (0 <= 1)%Z
  /\ map path
       (_fuzzy_search_files
          (fun q f => if contains q f then 100 else 40)%Z "Agen"
          ["/r/readme.md"; "/r/agent.py"; "/r/sub/agent_test.py"] 1)
     = ["/r/agent.py"]
  /\ (Z.of_nat
        (length
           (_fuzzy_search_files
              (fun q f => if contains q f then 100 else 40)%Z "Agen"
              ["/r/readme.md"; "/r/agent.py"; "/r/sub/agent_test.py"] 1))
      <= 1)%Z.
Proof.
  split; [lia |]. split; [reflexivity |].
  apply (fuzzy_search_results
           (fun q f => if contains q f then 100 else 40)%Z "Agen"
           ["/r/readme.md"; "/r/agent.py"; "/r/sub/agent_test.py"] 1).
  lia.
Defined.

Lemma search_content_bounds_witness :
  let fs : filesystem :=
    {[ "/repo/a.txt" := "foo" +:+ nl +:+ "foo" +:+ nl +:+ "foo" +:+ nl;
       "/repo/b.txt" := "foo" +:+ nl ]} in
  let r := _search_content_in_files fs "foo" ["/repo/a.txt"; "/repo/b.txt"]
             false 3 2 in
  (0 <= 2)%Z /\ capped 2 r /\ (total r <= Z.max (3 - 1) 0 + 2)%Z.
Proof.
  intros fs r. split; [lia |].
  apply (search_content_bounds fs "foo" ["/repo/a.txt"; "/repo/b.txt"]
           false 3 2).
  lia.
Defined.

End SearchMore.

Module AllowFacts.
Import PyStr PosixPath PyStrFacts PosixPathFacts PathFacts BasenameFacts
  PathValidator PathValidatorFacts PathGuardMore FileWalk FileWalkFacts.

Lemma segments_build (k : nat) (comps : list string) :
  k <> 0 -> comps_ok k comps -> segments (build k comps) = comps.
Proof.
  intros Hk Hok.
  assert (build k comps <> ".") as Hne.
  { intros E. pose proof (build_abs k comps Hk) as H. by rewrite E in H. }
  destruct (split_build _ _ Hok Hne) as (l & E & Hl).
  unfold segments. rewrite E, filter_app.
  assert (filter (fun x : string => x <> "") (replicate k "") = []) as ->.
  { clear. induction k as [|k IH]; [done |]. simpl.
    by rewrite filter_cons_False by (by intros H). }
  simpl. destruct Hl as [-> | [-> ->]]; [| done].
  destruct Hok as [HF _]. clear -HF.
  induction HF as [|x l (Hx & _) _ IH]; [done |].
  rewrite filter_cons_True by done. by rewrite IH.
Qed.

Lemma commonprefix_app (l1 l2 : list string) :
  commonprefix l1 (l1 ++ l2) = l1.
Proof.
  induction l1 as [|x l1 IH]; simpl; [by destruct l2 |].
  rewrite bool_decide_eq_true_2 by done. by rewrite IH.
Qed.

Lemma join_startswith (a : string) (p : list string) :
  Forall (fun b => startswith b "/" = false) p ->
  exists r, PosixPath.join a p = a +:+ r.
Proof.
  unfold PosixPath.join. revert a.
  induction p as [|b p IH]; intros a HF; simpl.
  - exists "". by rewrite str_app_nil_r.
  - inversion_clear HF as [|? ? Hb HF'].
    destruct (IH (join2 a b) HF') as [r ->].
    unfold join2. rewrite Hb.
    destruct (_ || _); eexists; by rewrite !str_app_assoc.
Qed.

Lemma startswith_dotdot_app (a r : string) :
  a <> "" -> a <> "." ->
  startswith (a +:+ r) ".." = startswith a "..".
Proof.
  intros Hne Hdot. destruct a as [|c [|c' a]]; [done | |].
  - simpl. destruct (Ascii.eqb c ".") eqn:E; [| done].
    apply Ascii.eqb_eq in E as ->. done.
  - simpl. by rewrite !andb_true_r.
Qed.

Lemma dotdot_leading_names (k : nat) (l names : list string) :
  dotdot_leading k l -> Forall entry_name names ->
  dotdot_leading k (l ++ names).
Proof.
  intros Hd Hnames. revert l Hd.
  induction Hnames as [|x names [_ Hdd] _ IH]; intros l Hd.
  - by rewrite app_nil_r.
  - rewrite cons_middle, (assoc_L (++) l [x] names). apply IH.
    by apply dotdot_snoc_other.
Qed.

(** A path below a normalized absolute directory, given by the names that
    lead to it. *)
Lemma join_normalized (dir : string) (names : list string) :
  isabs dir = true -> normpath dir = dir -> Forall entry_name names ->
  exists k comps,
    (k = 1 \/ k = 2) /\ comps_ok k comps /\ dir = build k comps
    /\ comps_ok k (comps ++ names)
    /\ PosixPath.join dir names = build k (comps ++ names).
Proof.
  intros Habs Hnorm Hnames.
  destruct (normalized_abs_build dir Habs Hnorm) as (k & comps & Hk & Hok & ->).
  assert (k <> 0) as Hk0 by lia.
  exists k, comps. split; [done |]. split; [done |]. split; [done |].
  assert (Forall plain names) as Hplain.
  { eapply Forall_impl; [exact Hnames |]. by intros ? [? _]. }
  split.
  - destruct Hok as [HF Hd]. split; [by apply Forall_app |].
    by apply dotdot_leading_names.
  - apply join_parts_build; [done | by destruct Hok | done].
Qed.

Section Validator.

Variable self : PathValidator.t.
Hypothesis repo_abs : isabs (repo_path self) = true.
Hypothesis repo_normalized : normpath (repo_path self) = repo_path self.

(** The path relative to the repository, for a path below it. *)
Lemma relpath_below (names : list string) :
  Forall entry_name names ->
  relpath (cwd self) (PosixPath.join (repo_path self) names) (repo_path self)
  = Some match names with
         | [] => "."
         | a :: p => PosixPath.join a p
         end.
Proof.
  intros Hnames.
  destruct (join_normalized _ names repo_abs repo_normalized Hnames)
    as (k & comps & Hk12 & Hok & Hrepo & Hok' & Hjoin).
  assert (k <> 0) as Hk by lia.
  unfold relpath. rewrite Hjoin.
  assert (build k (comps ++ names) <> "") as Hne.
  { intros E. pose proof (build_abs k (comps ++ names) Hk) as H.
    by rewrite E in H. }
  rewrite bool_decide_eq_false_2 by done.
  rewrite (abspath_normalized _ (repo_path self)) by done.
  rewrite (abspath_normalized _ (build k (comps ++ names)))
    by (by apply build_abs || (apply normpath_of_build; [lia | done])).
  rewrite Hrepo, !segments_build by done.
  rewrite commonprefix_app. replace (length comps - length comps) with 0 by lia.
  rewrite drop_app_length. simpl replicate. simpl app. by destruct names.
Qed.

Lemma join_below_normalized (names : list string) :
  Forall entry_name names ->
  isabs (PosixPath.join (repo_path self) names) = true
  /\ normpath (PosixPath.join (repo_path self) names)
     = PosixPath.join (repo_path self) names.
Proof.
  intros Hnames.
  destruct (join_normalized _ names repo_abs repo_normalized Hnames)
    as (k & comps & Hk12 & Hok & Hrepo & Hok' & ->).
  split; [apply build_abs; lia | apply normpath_of_build; [lia | done]].
Qed.

(** X23: a path that leads from the repository root down through
    ordinary names is allowed, whatever the allowed folders are, unless
    its first name starts with two dots. *)
Theorem repo_paths_allowed (names : list string) :
  Forall entry_name names ->
  (forall a rest, names = a :: rest -> startswith a ".." = false) ->
  is_path_allowed self (PosixPath.join (repo_path self) names) = true.
Proof.
  intros Hnames Hfirst.
  destruct (join_below_normalized names Hnames) as [Habs Hnorm].
  unfold is_path_allowed. rewrite Hnorm.
  destruct (_ || _); [done |]. destruct (_ || _); [done |].
  unfold is_relative_to. rewrite relpath_below by done.
  destruct names as [|a rest]; [done |].
  inversion_clear Hnames as [|? ? [(Hne & Hdot & Hsep) _] Hrest].
  destruct (join_startswith a rest) as [r ->].
  { eapply Forall_impl; [exact Hrest |].
    intros b [(_ & _ & Hb) _]. by apply startswith_sep_contains. }
  rewrite startswith_dotdot_app by done.
  by rewrite (Hfirst a rest eq_refl).
Qed.

(** X24: without allowed folders, a path below the repository root whose
    first name starts with two dots is refused: the relative path is
    taken for one that climbs out of the repository. *)
Theorem dotdot_names_refused (a : string) (rest : list string) :
  allowed_folders self = [] ->
  Forall entry_name (a :: rest) -> startswith a ".." = true ->
  is_path_allowed self (PosixPath.join (repo_path self) (a :: rest)) = false.
Proof.
  intros Hallowed Hnames Hdots.
  destruct (join_below_normalized _ Hnames) as [Habs Hnorm].
  pose proof (relpath_below _ Hnames) as Hrel.
  destruct (join_normalized _ _ repo_abs repo_normalized Hnames)
    as (k & comps & Hk12 & Hok & Hrepo & Hok' & Hjoin).
  assert (k <> 0) as Hk by lia.
  unfold is_path_allowed. rewrite Hnorm.
  rewrite bool_decide_eq_false_2.
  2:{ intros E. apply (f_equal segments) in E.
      rewrite Hjoin, Hrepo, !segments_build in E by done.
      apply (f_equal length) in E. rewrite length_app in E. simpl in E. lia. }
  rewrite bool_decide_eq_false_2 by (intros E; by rewrite E in Habs).
  pose proof (dirname_abs _ Habs) as Hd.
  rewrite bool_decide_eq_false_2 by (intros E; by rewrite E in Hd).
  rewrite bool_decide_eq_false_2 by (intros E; by rewrite E in Hd).
  cbn [orb]. unfold is_relative_to. rewrite Hrel.
  inversion_clear Hnames as [|? ? [(Hne & Hdot & Hsep) _] Hrest].
  destruct (join_startswith a rest) as [r ->].
  { eapply Forall_impl; [exact Hrest |].
    intros b [(_ & _ & Hb) _]. by apply startswith_sep_contains. }
  rewrite startswith_dotdot_app by done. rewrite Hdots. simpl.
  by rewrite Hallowed.
Qed.

End Validator.

Lemma repo_paths_allowed_witness :
  isabs (repo_path (Sample.validator [] [])) = true
  /\ PosixPath.join (repo_path (Sample.validator [] [])) ["src"; "main.py"]
     = "/home/u/repo/src/main.py"
  /\ is_path_allowed (Sample.validator [] [])
       (PosixPath.join (repo_path (Sample.validator [] [])) ["src"; "main.py"])
     = true.
Proof.
  split; [reflexivity |]. split; [reflexivity |].
  apply (repo_paths_allowed (Sample.validator [] [])
           eq_refl eq_refl ["src"; "main.py"]).
  - repeat constructor; discriminate.
  - by intros a rest [= <- <-].
Defined.

Lemma dotdot_names_refused_witness :
  allowed_folders (Sample.validator [] []) = []
  /\ validate_path (Sample.validator [] []) "..cache/x"
     = (false, access_denied_error "/home/u/repo/..cache/x")
  /\ is_path_allowed (Sample.validator [] [])
       (PosixPath.join (repo_path (Sample.validator [] [])) ["..cache"; "x"])
     = false.
Proof.
  split; [reflexivity |]. split; [reflexivity |].
  apply (dotdot_names_refused (Sample.validator [] [])
           eq_refl eq_refl "..cache" ["x"]);
    [reflexivity | repeat constructor; discriminate | reflexivity].
Defined.

End AllowFacts.

Module SearchPass.
Import PyStr OutputLimiter SearchTool SearchToolFacts.

Lemma set_fresh {V} (d : Dict.t V) (k : string) (v : V) :
  k ∉ map fst d -> Dict.set d k v = d ++ [(k, v)].
Proof.
  induction d as [|[k' v'] d IH]; simpl; [done |].
  intros Hnin. apply not_elem_of_cons in Hnin as [Hne Hnin].
  rewrite bool_decide_eq_false_2 by done. by rewrite IH.
Qed.

Lemma list_slice_to_idem {A} (l : list A) (k : Z) :
  (0 <= k)%Z -> list_slice_to (list_slice_to l k) k = list_slice_to l k.
Proof.
  intros Hk. unfold list_slice_to.
  destruct (Z.leb_spec 0 k); [| lia].
  by rewrite take_take, Nat.min_id.
Qed.

Section Loop.

Variable fs : filesystem.
Variable query : string.
Variable case_sensitive : bool.
Variables max_results max_per_file : Z.

(** The loop only appends to the results it starts from, as long as it
    meets no file twice. *)
Lemma search_loop_app (all_files : list string)
    (results : Dict.t (list ContentMatch)) (total_matches : Z) :
  NoDup all_files ->
  (forall file_path, file_path ∈ all_files -> file_path ∉ map fst results) ->
  search_loop fs query case_sensitive max_results max_per_file
    all_files results total_matches
  = results
    ++ search_loop fs query case_sensitive max_results max_per_file
         all_files [] total_matches.
Proof.
  revert results total_matches.
  induction all_files as [|file_path all_files IH];
    intros results total_matches Hnodup Hfresh; simpl.
  { by rewrite app_nil_r. }
  apply NoDup_cons in Hnodup as [Hnin Hnodup].
  assert (forall f, f ∈ all_files -> f ∉ map fst results) as Hfresh'.
  { intros f Hf. apply Hfresh. by right. }
  destruct (skipped fs file_path); [by apply IH |].
  destruct (bool_decide _); [by apply IH |].
  rewrite set_fresh by (apply Hfresh; left).
  destruct (_ >=? _)%Z; [done |].
  rewrite IH; [| done |].
  - rewrite (IH [_]); [by rewrite <- app_assoc | done |].
    intros f Hf [->|[]%elem_of_nil]%elem_of_cons. done.
  - intros f Hf. rewrite map_app. simpl.
    intros [Hin|[->|[]%elem_of_nil]%elem_of_cons]%elem_of_app; [| done].
    by apply (Hfresh' f).
Qed.

(** What the search loop has collected passes through the loop of
    [limit_content_matches] as it is. *)
Lemma limit_content_loop_search_loop (all_files : list string)
    (limited : Dict.t (list ContentMatch)) (total_matches : Z) :
  (0 <= max_per_file)%Z -> NoDup all_files ->
  (forall file_path, file_path ∈ all_files -> file_path ∉ map fst limited) ->
  limit_content_loop
    (search_loop fs query case_sensitive max_results max_per_file
       all_files [] total_matches)
    max_results max_per_file limited total_matches
  = limited
    ++ search_loop fs query case_sensitive max_results max_per_file
         all_files [] total_matches.
Proof.
  intros Hcap. revert limited total_matches.
  induction all_files as [|file_path all_files IH];
    intros limited total_matches Hnodup Hfresh; simpl.
  { by rewrite app_nil_r. }
  apply NoDup_cons in Hnodup as [Hnin Hnodup].
  assert (forall f, f ∈ all_files -> f ∉ map fst limited) as Hfresh'.
  { intros f Hf. apply Hfresh. by right. }
  destruct (skipped fs file_path); [by apply IH |].
  destruct (bool_decide _); [by apply IH |].
  set (file_matches :=
         list_slice_to (_search_file_content fs query file_path case_sensitive)
           max_per_file).
  assert (list_slice_to file_matches max_per_file = file_matches) as Hidem
    by (by apply list_slice_to_idem).
  destruct (_ >=? _)%Z eqn:Hstop.
  - simpl. rewrite Hidem, Hstop. apply set_fresh, Hfresh. by left.
  - rewrite search_loop_app; [| done |].
    2:{ intros f Hf [->|[]%elem_of_nil]%elem_of_cons. done. }
    simpl. rewrite Hidem, Hstop.
    rewrite set_fresh by (apply Hfresh; left).
    rewrite IH; [by rewrite <- app_assoc | done |].
    intros f Hf. rewrite map_app. simpl.
    intros [Hin|[->|[]%elem_of_nil]%elem_of_cons]%elem_of_app; [| done].
    by apply (Hfresh' f).
Qed.

(** X25: on files that are all different, the last pass of the content
    search, through [limit_content_matches], changes nothing: the result
    is what the loop over the files has collected. *)
Theorem search_content_limit_pass (all_files : list string) :
  (0 <= max_per_file)%Z -> NoDup all_files ->
  _search_content_in_files fs query all_files case_sensitive
    max_results max_per_file
  = search_loop fs query case_sensitive max_results max_per_file
      all_files [] 0.
Proof.
  intros Hcap Hnodup. unfold _search_content_in_files, limit_content_matches.
  rewrite limit_content_loop_search_loop; [done | done | done |].
  intros f _. simpl. apply not_elem_of_nil.
Qed.

End Loop.

Lemma search_content_limit_pass_witness :
  let fs : filesystem :=
    {[ "/repo/a.txt" := "foo" +:+ nl +:+ "foo" +:+ nl +:+ "foo" +:+ nl;
       "/repo/b.txt" := "foo" +:+ nl ]} in
  (0 <= 2)%Z /\ NoDup ["/repo/a.txt"; "/repo/b.txt"]
  /\ _search_content_in_files fs "foo" ["/repo/a.txt"; "/repo/b.txt"]
       false 3 2
     = search_loop fs "foo" false 3 2 ["/repo/a.txt"; "/repo/b.txt"] [] 0.
Proof.
  intros fs.
  assert (NoDup ["/repo/a.txt"; "/repo/b.txt"]) as Hnodup.
  { apply NoDup_cons. split; [| apply NoDup_singleton].
    intros [E|[]%elem_of_nil]%elem_of_cons. discriminate. }
  split; [lia |]. split; [exact Hnodup |].
  apply (search_content_limit_pass fs "foo" false 3 2
           ["/repo/a.txt"; "/repo/b.txt"]); [lia | exact Hnodup].
Defined.

End SearchPass.

Module CreateFacts.
Import PyStr PosixPath PyStrFacts BasenameFacts OutputLimiterFacts TextIO
  TextEditorTool TextEditorToolFacts.

(** ** The directories *)

Lemma length_rstrip (c : ascii) (s : string) :
  String.length (rstrip c s) <= String.length s.
Proof.
  induction s as [|a s IH]; simpl; [done |].
  destruct (rstrip c s); simpl in *; [| lia].
  destruct (Ascii.eqb a c); simpl; lia.
Qed.

Lemma str_take_app (d x : string) : str_take (String.length d) (d +:+ x) = d.
Proof. induction d as [|a d IH]; simpl; [by destruct x | by rewrite IH]. Qed.

(** [os.path.split] cuts a path in two without adding a character. *)
Lemma length_dirname_basename (p : string) :
  String.length (dirname p) + String.length (basename p) <= String.length p.
Proof.
  destruct (contains_char "/" p) eqn:Hp.
  - destruct (last_sep_split _ _ Hp) as (d & x & -> & Hx).
    rewrite basename_app_sep by done.
    unfold dirname, rfind, slice_to. rewrite (rfind_nat_last _ d x Hx).
    destruct (0 <=? _)%Z eqn:E; [| apply Z.leb_gt in E; lia].
    replace (Z.to_nat (Z.of_nat (String.length d) + 1))
      with (String.length (d +:+ "/")) by (rewrite str_length_app; simpl; lia).
    replace (d +:+ String "/" x) with ((d +:+ "/") +:+ x)
      by (by rewrite str_app_assoc).
    rewrite str_take_app.
    pose proof (length_rstrip "/" (d +:+ "/")) as Hr.
    rewrite !str_length_app in *. simpl in *.
    destruct (_ && _); [lia |]. rewrite str_length_app. simpl. lia.
  - rewrite basename_no_sep by done.
    unfold dirname, rfind. rewrite (rfind_nat_none _ p Hp). simpl.
    unfold slice_to. simpl. destruct p; simpl; lia.
Qed.

Lemma extends_refl (self : t) : extends self self.
Proof. by destruct self. Qed.

Lemma extends_trans (a b c : t) : extends a b -> extends b c -> extends a c.
Proof.
  intros (Hb & Hab & Hcb) (Hc & Hbc & Hcc). split; [| split].
  - rewrite Hc. rewrite Hb at 1. by destruct a.
  - set_solver.
  - auto.
Qed.

Lemma mkdir_extends (self made : t) (name : string) :
  mkdir self name = inr made -> extends self made.
Proof.
  unfold mkdir.
  destruct (isdir self (dirname name)) eqn:Hparent; simpl; [| done].
  destruct (path_exists self name); [done |].
  intros [= <-]. split; [done |]. split; [simpl; set_solver |].
  intros Hclosed d. simpl.
  intros [->%elem_of_singleton | Hd]%elem_of_union.
  - apply bool_decide_eq_true in Hparent. set_solver.
  - apply elem_of_union_r. by apply Hclosed.
Qed.

Lemma makedirs_leaf_extends (self : t) (name : string) :
  extends self (makedirs_leaf self name).2.
Proof.
  unfold makedirs_leaf. destruct (mkdir self name) as [e|made] eqn:E.
  - destruct (isdir self name); apply extends_refl.
  - by apply mkdir_extends in E.
Qed.

(** The call [makedirs] makes on the head of [name], if it makes one. *)
Lemma makedirs_fuel_unfold (fuel : nat) (self : t) (name : string) :
  makedirs_fuel fuel self name
  = let head := dirname name in
    let tail := basename name in
    let '(head, tail) :=
      if bool_decide (tail = "") then (dirname head, basename head)
      else (head, tail) in
    if negb (bool_decide (head = "")) && negb (bool_decide (tail = ""))
       && negb (path_exists self head)
    then
      match fuel with
      | 0 => makedirs_leaf self name
      | S fuel =>
          match makedirs_fuel fuel self head with
          | (Some (FileExistsError _), self) | (None, self) =>
              if bool_decide (tail = ".") then (None, self)
              else makedirs_leaf self name
          | (Some e, self) => (Some e, self)
          end
      end
    else makedirs_leaf self name.
Proof. by destruct fuel. Qed.

Lemma makedirs_fuel_extends (fuel : nat) (self : t) (name : string) :
  extends self (makedirs_fuel fuel self name).2.
Proof.
  revert self name. induction fuel as [|fuel IH]; intros self name;
    rewrite makedirs_fuel_unfold; cbv zeta.
  - destruct (if bool_decide _ then _ else _) as [head tail].
    destruct (_ && _); apply makedirs_leaf_extends.
  - destruct (if bool_decide _ then _ else _) as [head tail].
    destruct (_ && _); [| apply makedirs_leaf_extends].
    pose proof (IH self head) as Hhead.
    destruct (makedirs_fuel fuel self head) as [[[f|f|f]|] made];
      simpl in *; try done.
    + destruct (bool_decide (tail = ".")); [done |].
      eapply extends_trans; [exact Hhead | apply makedirs_leaf_extends].
    + destruct (bool_decide (tail = ".")); [done |].
      eapply extends_trans; [exact Hhead | apply makedirs_leaf_extends].
Qed.

(** The characters of [name] are fuel enough. *)
Lemma makedirs_fuel_enough (n m : nat) (self : t) (name : string) :
  String.length name <= n -> String.length name <= m ->
  makedirs_fuel n self name = makedirs_fuel m self name.
Proof.
  revert m self name. induction n as [|n IH]; intros m self name Hn Hm;
    rewrite !(makedirs_fuel_unfold _ self name); cbv zeta.
  - destruct name; [| simpl in Hn; lia]. by destruct m.
  - pose proof (length_dirname_basename name) as Hname.
    pose proof (length_dirname_basename (dirname name)) as Hhead.
    destruct (bool_decide (basename name = "")) eqn:Etail.
    + destruct (bool_decide (basename (dirname name) = "")) eqn:E; simpl;
        [by rewrite andb_false_r |].
      apply bool_decide_eq_false in E.
      destruct (basename (dirname name)) as [|c tail] eqn:Eb; [done |].
      simpl in Hhead.
      destruct (_ && _); [| done].
      destruct m as [|m]; [lia |].
      by rewrite (IH m) by lia.
    + apply bool_decide_eq_false in Etail.
      destruct (basename name) as [|c tail] eqn:Eb; [done |].
      simpl in Hname.
      destruct (_ && _); [| done].
      destruct m as [|m]; [lia |].
      by rewrite (IH m) by lia.
Qed.

Lemma makedirs_extends (self : t) (name : string) :
  extends self (makedirs self name).2.
Proof. apply makedirs_fuel_extends. Qed.

(** A directory that is there is left as it is. *)
Lemma makedirs_isdir (self : t) (name : string) :
  closed self -> name ∈ directories self ->
  makedirs self name = (None, self).
Proof.
  intros Hclosed Hname. unfold makedirs. rewrite makedirs_fuel_unfold.
  cbv zeta.
  assert (forall d, d ∈ directories self -> path_exists self d = true) as Hex.
  { intros d Hd. unfold path_exists, isdir.
    rewrite (bool_decide_eq_true_2 _ Hd). apply orb_true_r. }
  assert (makedirs_leaf self name = (None, self)) as Hleaf.
  { unfold makedirs_leaf, mkdir, isdir.
    rewrite (bool_decide_eq_true_2 _ (Hclosed _ Hname)). simpl.
    rewrite (Hex _ Hname). by rewrite (bool_decide_eq_true_2 _ Hname). }
  destruct (bool_decide (basename name = "")).
  - rewrite (Hex (dirname (dirname name))) by auto.
    by rewrite andb_false_r.
  - rewrite (Hex (dirname name)) by auto. by rewrite andb_false_r.
Qed.

(** A regular file in a directory stands in the way. *)
Lemma makedirs_isfile (self : t) (name : string) :
  closed self -> dirname name ∈ directories self ->
  fs self !! name <> None -> name ∉ directories self ->
  makedirs self name = (Some (FileExistsError name), self).
Proof.
  intros Hclosed Hparent Hfile Hnodir. unfold makedirs.
  rewrite makedirs_fuel_unfold. cbv zeta.
  assert (forall d, d ∈ directories self -> path_exists self d = true) as Hex.
  { intros d Hd. unfold path_exists, isdir.
    rewrite (bool_decide_eq_true_2 _ Hd). apply orb_true_r. }
  assert (makedirs_leaf self name = (Some (FileExistsError name), self))
    as Hleaf.
  { unfold makedirs_leaf, mkdir, isdir, path_exists, isfile, isdir.
    rewrite (bool_decide_eq_true_2 _ Hparent). simpl.
    rewrite (bool_decide_eq_false_2 (fs self !! name = None)) by done.
    simpl. by rewrite (bool_decide_eq_false_2 _ Hnodir). }
  destruct (bool_decide (basename name = "")).
  - rewrite (Hex (dirname (dirname name))) by auto.
    by rewrite andb_false_r.
  - rewrite (Hex (dirname name)) by auto. by rewrite andb_false_r.
Qed.

(** ** The create command *)

(** X13: [_handle_create] answers that the path exists for a directory as
    for a file, and then changes nothing.  It writes the file and its
    record only when it reports success, and then to a path that was free
    and with confirmation switched off.  Whatever it answers, the other
    files and records are as they were, and no directory is lost. *)
Theorem create_effects (self : t) (path : string) (p : params) :
  let r := _handle_create self path p in
  (path_exists self path = true -> r = (already_exists_error path, self))
  /\ (r.1 = created path ->
      path_exists self path = false
      /\ confirm p = Some false
      /\ fs r.2 !! path = Some (default "" (file_text p))
      /\ last_edits r.2 !! path
         = Some {| backup_path := "";
                   op := Create;
                   old_content := "";
                   new_content := default "" (file_text p) |})
  /\ (r.1 <> created path ->
      fs r.2 = fs self /\ last_edits r.2 = last_edits self)
  /\ (forall q, q <> path ->
       fs r.2 !! q = fs self !! q
       /\ last_edits r.2 !! q = last_edits self !! q)
  /\ directories self ⊆ directories r.2
  /\ (closed self -> closed r.2).
Proof.
  cbv zeta. split.
  { unfold _handle_create. by intros ->. }
  split.
  { intros Hr. destruct (create_committed _ _ _ Hr) as (made & Hfree & Hc & _ & ->).
    split; [done |]. split; [by destruct (confirm p) as [[|]|] |].
    unfold TextIO.write. simpl. by rewrite !lookup_insert_eq. }
  pose proof (makedirs_extends self (dirname (abspath (getcwd self) path)))
    as (Hmade & Hsub & Hclosed).
  unfold _handle_create.
  destruct (path_exists self path); [by repeat split |].
  destruct (default true (confirm p)); [by repeat split |].
  destruct (makedirs _ _) as [[e|] made]; simpl in *; rewrite Hmade; simpl.
  - by repeat split.
  - split; [done |]. split; [| by split].
    intros q Hq. unfold TextIO.write. by rewrite !lookup_insert_ne by done.
Qed.

(** X26: a create commits on a free path in a directory that is there,
    with confirmation switched off, for a path as the tool passes it,
    absolute and normalized: it writes the text and the record of a
    creation, and makes no directory. *)
Theorem create_in_directory (self : t) (path : string) (p : params) :
  closed self ->
  isabs path = true -> normpath path = path ->
  path_exists self path = false ->
  confirm p = Some false ->
  dirname path ∈ directories self ->
  _handle_create self path p
  = (created path,
     with_last_edit
       (with_fs self (<[path := default "" (file_text p)]> (fs self)))
       path
       {| backup_path := "";
          op := Create;
          old_content := "";
          new_content := default "" (file_text p) |}).
Proof.
  intros Hclosed Habs Hnorm Hfree Hconfirm Hdir.
  assert (abspath (getcwd self) path = path) as Hpath.
  { unfold abspath. by rewrite Habs. }
  unfold _handle_create. rewrite Hfree, Hconfirm, Hpath. simpl.
  by rewrite (makedirs_isdir self _ Hclosed Hdir).
Qed.

(** X27: below a regular file nothing is created.  When the directory the
    file is to go to is a regular file, the answer is the error that this
    file exists; when it is to be a new directory inside a regular file,
    the answer is that this is not a directory.  The state is as it
    was. *)
Theorem create_below_file (self : t) (path : string) (p : params) :
  closed self ->
  path_exists self path = false ->
  confirm p = Some false ->
  let parent := dirname (abspath (getcwd self) path) in
  (fs self !! parent <> None -> parent ∉ directories self ->
   dirname parent ∈ directories self ->
   _handle_create self path p
   = (create_exception (FileExistsError parent), self))
  /\ (path_exists self parent = false -> basename parent <> "" ->
      fs self !! dirname parent <> None ->
      dirname parent ∉ directories self ->
      _handle_create self path p
      = (create_exception (NotADirectoryError parent), self)).
Proof.
  intros Hclosed Hfree Hconfirm. cbv zeta. unfold _handle_create.
  rewrite Hfree, Hconfirm. simpl. split.
  - intros Hfile Hnodir Hparent.
    by rewrite (makedirs_isfile self _ Hclosed Hparent Hfile Hnodir).
  - set (parent := dirname (abspath (getcwd self) path)).
    intros Hnone Htail Hfile Hnodir.
    assert (makedirs self parent = (Some (NotADirectoryError parent), self))
      as ->; [| done].
    unfold makedirs. rewrite makedirs_fuel_unfold. cbv zeta.
    rewrite (bool_decide_eq_false_2 _ Htail).
    assert (path_exists self (dirname parent) = true) as ->.
    { unfold path_exists, isfile. by rewrite bool_decide_eq_false_2. }
    rewrite andb_false_r.
    unfold makedirs_leaf, mkdir, isdir, isfile.
    rewrite (bool_decide_eq_false_2 _ Hnodir). simpl.
    rewrite (bool_decide_eq_false_2 (fs self !! dirname parent = None))
      by done.
    simpl. apply orb_false_iff in Hnone as [_ Hd]. unfold isdir in Hd.
    by rewrite Hd.
Qed.

Lemma editor_closed : closed Sample.editor.
Proof.
  intros d Hd. unfold Sample.editor in *. simpl in *.
  set_unfold. repeat destruct Hd as [Hd|Hd]; subst d; vm_compute; tauto.
Qed.

Lemma create_effects_witness :
  path_exists Sample.editor "/home/u/repo" = true
  /\ fs Sample.editor !! "/home/u/repo" = None
  /\ _handle_create Sample.editor "/home/u/repo"
       (Sample.creation "new" (Some false))
     = (already_exists_error "/home/u/repo", Sample.editor)
  /\ _handle_create Sample.editor "/home/u/repo/b.txt"
       (Sample.creation "new" (Some false))
     = (already_exists_error "/home/u/repo/b.txt", Sample.editor).
Proof.
  split; [reflexivity |]. split; [reflexivity |].
  split.
  - apply (create_effects Sample.editor "/home/u/repo"
             (Sample.creation "new" (Some false))).
    reflexivity.
  - apply (create_effects Sample.editor "/home/u/repo/b.txt"
             (Sample.creation "new" (Some false))).
    reflexivity.
Defined.

Lemma create_in_directory_witness :
  path_exists Sample.editor "/home/u/repo/new.txt" = false
  /\ dirname "/home/u/repo/new.txt" = "/home/u/repo"
  /\ _handle_create Sample.editor "/home/u/repo/new.txt"
       (Sample.creation "hello" (Some false))
     = (created "/home/u/repo/new.txt",
        with_last_edit
          (with_fs Sample.editor
             (<["/home/u/repo/new.txt" := "hello"]> (fs Sample.editor)))
          "/home/u/repo/new.txt"
          {| backup_path := "";
             op := Create;
             old_content := "";
             new_content := "hello" |}).
Proof.
  split; [reflexivity |]. split; [reflexivity |].
  apply (create_in_directory Sample.editor "/home/u/repo/new.txt"
           (Sample.creation "hello" (Some false)) editor_closed).
  - reflexivity.
  - reflexivity.
  - reflexivity.
  - reflexivity.
  - vm_compute. set_solver.
Defined.

Lemma create_below_file_witness :
  _handle_create Sample.editor "/home/u/repo/b.txt/x"
    (Sample.creation "new" (Some false))
  = ("Error creating file: [Errno 17] File exists: '/home/u/repo/b.txt'",
     Sample.editor)
  /\ _handle_create Sample.editor "/home/u/repo/b.txt/sub/x"
       (Sample.creation "new" (Some false))
     = ("Error creating file: [Errno 20] Not a directory: '/home/u/repo/b.txt/sub'",
        Sample.editor).
Proof.
  split.
  - apply (proj1 (create_below_file Sample.editor "/home/u/repo/b.txt/x"
                    (Sample.creation "new" (Some false)) editor_closed
                    eq_refl eq_refl)).
    + discriminate.
    + vm_compute. set_solver.
    + vm_compute. set_solver.
  - apply (proj2 (create_below_file Sample.editor "/home/u/repo/b.txt/sub/x"
                    (Sample.creation "new" (Some false)) editor_closed
                    eq_refl eq_refl)).
    + reflexivity.
    + discriminate.
    + discriminate.
    + vm_compute. set_solver.
Defined.

End CreateFacts.
